(** * hawking: the build-directory scanner and its size accumulator

    A shallow embedding of [getDirectorySize], [isRustProject],
    [findBuildDirectories], [deleteBuildDirectory], [cleanup], [main] and
    [getHomeDirectory] of src/index.ts, and of [getDirectorySize] and
    [findNodeModules] of the earlier version of the same script
    (src/unnamed/part_000), followed by the properties of the scan, of the
    deletion and of [main].

    The file system is a finite tree.  Every function of the script that
    takes a path receives, next to the path, what the file system holds at
    that path; the recursion of the script on paths is then the structural
    recursion on the tree.  The calls the script makes and the lines it
    writes with [console.error] are collected in a trace. *)

From Stdlib Require Import List String ZArith Lia Bool Permutation.
Import ListNotations.

Local Open Scope string_scope.
Local Open Scope Z_scope.
Local Open Scope list_scope.

(** ** Paths

    [process.cwd()] is an absolute, normalized path and the names that
    [fs.readdir] returns are single components, so a path is kept as the
    sequence of its components: [path.join] with an entry name adds a
    component, [path.dirname] drops the last one. *)

Definition Path : Type := list string.

Definition path_join (p : Path) (name : string) : Path := p ++ [name].

Definition path_dirname (p : Path) : Path := removelast p.

Definition path_to_string (p : Path) : string :=
  ("/" ++ String.concat "/" p)%string.

(** [String.prototype.replace] with a string pattern: the first occurrence
    only; the empty pattern matches at index 0. *)
Definition replace (pattern replacement s : string) : string :=
  match index 0 pattern s with
  | Some i =>
      (substring 0 i s ++ replacement
       ++ substring (i + String.length pattern)
                    (String.length s - (i + String.length pattern)) s)%string
  | None => s
  end.

(** [process.env]: the two variables the script reads. *)
Record Env : Type := {
  HOME : option string;
  USERPROFILE : option string
}.

(** [a || b] on possibly undefined strings: the empty string is falsy. *)
Definition js_or (a : option string) (b : string) : string :=
  match a with
  | Some s => if (s =? "")%string then b else s
  | None => b
  end.

Definition getHomeDirectory (env : Env) : string :=
  js_or (HOME env) (js_or (USERPROFILE env) "").

(** ** The file system

    A [Dirent] is an entry of a directory listing.  For an entry that is
    not a directory ([isDirectory()] false: regular files, symbolic links,
    ...) the tree records what [fs.stat] answers on it: [Some size], or
    [None] when [fs.stat] throws (a dangling link).  For a directory it
    records what [fs.readdir] answers on it. *)

Inductive Dirent : Type :=
| File (name : string) (stat_size : option Z)
| Dir (name : string) (dir : Directory)
with Directory : Type :=
| Unreadable                        (* fs.readdir throws *)
| Listing (files : list Dirent).    (* fs.readdir returns the entries, in this order *)

Definition dirent_name (f : Dirent) : string :=
  match f with
  | File name _ => name
  | Dir name _ => name
  end.

Definition isDirectory (f : Dirent) : bool :=
  match f with
  | File _ _ => false
  | Dir _ _ => true
  end.

(** ** Effects: the trace

    [Enter fn p]: function [fn] is entered with path [p].
    [ConsoleError msg p]: [console.error] of the template [msg] filled
    with [p]. *)

Inductive Fn : Type :=
| Search       (* findBuildDirectories, findNodeModules *)
| Size         (* getDirectorySize *)
| RustCheck.   (* isRustProject *)

Inductive Event : Type :=
| Enter (fn : Fn) (p : Path)
| ConsoleError (message : string) (p : Path).

Definition M (A : Type) : Type := (A * list Event)%type.

Definition ret {A : Type} (a : A) : M A := (a, []).

Definition bind {A B : Type} (m : M A) (k : A -> M B) : M B :=
  let (a, t1) := m in
  let (b, t2) := k a in
  (b, t1 ++ t2).

Definition emit (e : Event) : M unit := (tt, [e]).

Definition value {A : Type} (m : M A) : A := fst m.
Definition trace {A : Type} (m : M A) : list Event := snd m.

Declare Scope monad_scope.
Delimit Scope monad_scope with monad.
Notation "x <- m ;; k" := (bind m (fun x => k))
  (at level 61, m at next level, right associativity) : monad_scope.
Notation "m ;; k" := (bind m (fun _ => k))
  (at level 61, right associativity) : monad_scope.
Local Open Scope monad_scope.

(** ** src/index.ts *)

(** Sizes are [stat.size] values and their sums: non-negative integers,
    which JavaScript adds without rounding below 2^53; they are kept in
    [Z]. *)

Inductive ProjectType : Type := node | rust.

Record ProjectInfo : Type := {
  path : Path;
  nice_path : string;
  size : Z;
  type : ProjectType
}.

Section SizeLoop.
(** The [for] loop of [getDirectorySize] over the entries still to do,
    [size] being the local variable.  A throwing [fs.stat] leaves the
    loop for the [catch] block, which reports and falls through to
    [return size]. *)
Variable getDirectorySize : Path -> Directory -> M Z.
Variable dirPath : Path.

Fixpoint getDirectorySize_loop (files : list Dirent) (size : Z) : M Z :=
  match files with
  | [] => ret size
  | file :: rest =>
      let filePath := path_join dirPath (dirent_name file) in
      match file with
      | Dir _ sub =>
          s <- getDirectorySize filePath sub ;;
          getDirectorySize_loop rest (size + s)
      | File _ (Some stat_size) =>
          getDirectorySize_loop rest (size + stat_size)
      | File _ None =>
          emit (ConsoleError "Error reading directory" dirPath) ;;
          ret size
      end
  end.
End SizeLoop.

Fixpoint getDirectorySize (dirPath : Path) (dir : Directory) {struct dir} : M Z :=
  emit (Enter Size dirPath) ;;
  match dir with
  | Unreadable =>
      emit (ConsoleError "Error reading directory" dirPath) ;;
      ret 0
  | Listing files =>
      getDirectorySize_loop getDirectorySize dirPath files 0
  end.

(** [Array.prototype.includes] on an array of strings. *)
Definition includes (a : list string) (searchElement : string) : bool :=
  existsb (String.eqb searchElement) a.

(** [dir] is what the file system holds at [dirPath]; without
    [withFileTypes], [fs.readdir] gives the names of the entries. *)
Definition isRustProject (dirPath : Path) (dir : Directory) : M bool :=
  emit (Enter RustCheck dirPath) ;;
  match dir with
  | Unreadable => ret false
  | Listing files =>
      ret (includes (map dirent_name files) "Cargo.toml")
  end.

Definition startsWith (s searchString : string) : bool :=
  String.prefix searchString s.

Section SearchLoop.
(** The [for] loop of [findBuildDirectories].  [results] is the shared
    array: every push is seen by the caller, so the loop hands the
    array on.  [here] is the directory at [startPath], which is the
    [path.dirname] of every [fullPath] of the loop and is what
    [isRustProject] lists again. *)
Variable env : Env.
Variable findBuildDirectories :
  Path -> Directory -> list ProjectInfo -> M (list ProjectInfo).
Variable startPath : Path.
Variable here : Directory.

Fixpoint findBuildDirectories_loop (files : list Dirent)
    (results : list ProjectInfo) : M (list ProjectInfo) :=
  match files with
  | [] => ret results
  | file :: rest =>
      let fullPath := path_join startPath (dirent_name file) in
      match file with
      | File _ _ => findBuildDirectories_loop rest results
      | Dir name sub =>
          if (name =? "node_modules")%string then
            size <- getDirectorySize fullPath sub ;;
            findBuildDirectories_loop rest
              (results ++ [ {| path := path_dirname fullPath;
                               nice_path :=
                                 replace (getHomeDirectory env) "~"
                                   (path_to_string (path_dirname fullPath));
                               size := size;
                               type := node |} ])
          else
            confirmed <-
              (if (name =? "target")%string
               then isRustProject (path_dirname fullPath) here
               else ret false) ;;
            if confirmed then
              size <- getDirectorySize fullPath sub ;;
              findBuildDirectories_loop rest
                (results ++ [ {| path := path_dirname fullPath;
                                 nice_path :=
                                   replace (getHomeDirectory env) "~"
                                     (path_to_string (path_dirname fullPath));
                                 size := size;
                                 type := rust |} ])
            else if negb (startsWith name ".")
                    && negb (name =? "node_modules")%string
                    && negb (name =? "target")%string then
              results' <- findBuildDirectories fullPath sub results ;;
              findBuildDirectories_loop rest results'
            else
              findBuildDirectories_loop rest results
      end
  end.
End SearchLoop.

Fixpoint findBuildDirectories (env : Env) (startPath : Path) (dir : Directory)
    (results : list ProjectInfo) {struct dir} : M (list ProjectInfo) :=
  emit (Enter Search startPath) ;;
  match dir with
  | Unreadable =>
      emit (ConsoleError "Error searching in" startPath) ;;
      ret results
  | Listing files =>
      findBuildDirectories_loop env (findBuildDirectories env) startPath dir
        files results
  end.

(** The call of [main]: the default [results = []]. *)
Definition scan (env : Env) (startPath : Path) (dir : Directory)
  : M (list ProjectInfo) :=
  findBuildDirectories env startPath dir [].

(** [deleteBuildDirectory]'s [dirPath]: the artifact directory a match
    stands for. *)
Definition artifactDir (p : ProjectInfo) : Path :=
  path_join (path p)
    match type p with node => "node_modules" | rust => "target" end.

(** ** src/unnamed/part_000: the earlier version *)

Module NodeOnly.

Record ProjectInfo : Type := {
  path : Path;
  size : Z
}.

Section SizeLoop.
Variable getDirectorySize : Path -> Directory -> M Z.
Variable dirPath : Path.

Fixpoint getDirectorySize_loop (files : list Dirent) (size : Z) : M Z :=
  match files with
  | [] => ret size
  | file :: rest =>
      let filePath := path_join dirPath (dirent_name file) in
      match file with
      | Dir _ sub =>
          s <- getDirectorySize filePath sub ;;
          getDirectorySize_loop rest (size + s)
      | File _ (Some stat_size) =>
          getDirectorySize_loop rest (size + stat_size)
      | File _ None =>
          emit (ConsoleError "Error reading directory" dirPath) ;;
          ret size
      end
  end.
End SizeLoop.

Fixpoint getDirectorySize (dirPath : Path) (dir : Directory) {struct dir} : M Z :=
  emit (Enter Size dirPath) ;;
  match dir with
  | Unreadable =>
      emit (ConsoleError "Error reading directory" dirPath) ;;
      ret 0
  | Listing files =>
      getDirectorySize_loop getDirectorySize dirPath files 0
  end.

Section SearchLoop.
Variable findNodeModules :
  Path -> Directory -> list ProjectInfo -> M (list ProjectInfo).
Variable startPath : Path.

Fixpoint findNodeModules_loop (files : list Dirent)
    (results : list ProjectInfo) : M (list ProjectInfo) :=
  match files with
  | [] => ret results
  | file :: rest =>
      let fullPath := path_join startPath (dirent_name file) in
      match file with
      | File _ _ => findNodeModules_loop rest results
      | Dir name sub =>
          if (name =? "node_modules")%string then
            size <- getDirectorySize fullPath sub ;;
            findNodeModules_loop rest
              (results ++ [ {| path := path_dirname fullPath;
                               size := size |} ])
          else if negb (startsWith name ".")
                  && negb (name =? "node_modules")%string then
            results' <- findNodeModules fullPath sub results ;;
            findNodeModules_loop rest results'
          else
            findNodeModules_loop rest results
      end
  end.
End SearchLoop.

Fixpoint findNodeModules (startPath : Path) (dir : Directory)
    (results : list ProjectInfo) {struct dir} : M (list ProjectInfo) :=
  emit (Enter Search startPath) ;;
  match dir with
  | Unreadable =>
      emit (ConsoleError "Error searching in" startPath) ;;
      ret results
  | Listing files =>
      findNodeModules_loop findNodeModules startPath files results
  end.

Definition scan (startPath : Path) (dir : Directory) : M (list ProjectInfo) :=
  findNodeModules startPath dir [].

End NodeOnly.

(** * Vocabulary of the properties

    Nothing below is part of the script: these definitions name what the
    properties speak about. *)

(** ** Induction on a directory tree: the property holds of every directory
    listed in a listing before it is shown of the listing. *)

Section DirectoryInduction.
Variable P : Directory -> Prop.
Hypothesis P_Unreadable : P Unreadable.
Hypothesis P_Listing :
  forall files,
    (forall name sub, In (Dir name sub) files -> P sub) ->
    P (Listing files).

Fixpoint Directory_tree_ind (d : Directory) : P d :=
  match d with
  | Unreadable => P_Unreadable
  | Listing files =>
      P_Listing files
        ((fix below (l : list Dirent) :
            forall name sub, In (Dir name sub) l -> P sub :=
            match l with
            | [] => fun _ _ H => match H with end
            | f :: rest =>
                fun name sub H =>
                  match H with
                  | or_introl e =>
                      match f as f0 return f0 = Dir name sub -> P sub with
                      | File _ _ => fun e0 =>
                          match eq_ind (File _ _) (fun x => match x with File _ _ => True | Dir _ _ => False end) I _ e0 with end
                      | Dir _ s => fun e0 =>
                          eq_ind s P (Directory_tree_ind s) sub
                            (f_equal (fun x => match x with Dir _ s0 => s0 | File _ _ => s end) e0)
                      end e
                  | or_intror H' => below rest name sub H'
                  end
            end) files)
  end.
End DirectoryInduction.

(** ** What a scan finds and what it calls

    [found] is the list a scan pushes, [calls] its trace.  Both are given
    entry by entry by [entry_found] and [entry_calls], after the case
    [classify] a directory entry falls in. *)

Definition found (env : Env) (p : Path) (d : Directory) : list ProjectInfo :=
  value (findBuildDirectories env p d []).

Definition calls (env : Env) (p : Path) (d : Directory) : list Event :=
  trace (findBuildDirectories env p d []).

Definition hasCargo (here : Directory) : bool :=
  match here with
  | Unreadable => false
  | Listing files => includes (map dirent_name files) "Cargo.toml"
  end.

Definition recursable (name : string) : bool :=
  negb (startsWith name ".")
  && negb (name =? "node_modules")%string
  && negb (name =? "target")%string.

Inductive Action : Type :=
| Skip
| Match (t : ProjectType)
| Recurse.

Definition classify (here : Directory) (name : string) : Action :=
  if (name =? "node_modules")%string then Match node
  else if (name =? "target")%string && hasCargo here then Match rust
  else if recursable name then Recurse
  else Skip.

Definition pushed (env : Env) (parent : Path) (size : Z) (t : ProjectType)
  : ProjectInfo :=
  {| path := parent;
     nice_path := replace (getHomeDirectory env) "~" (path_to_string parent);
     size := size;
     type := t |}.

Definition entry_found (env : Env) (p : Path) (here : Directory) (f : Dirent)
  : list ProjectInfo :=
  match f with
  | File _ _ => []
  | Dir name sub =>
      match classify here name with
      | Skip => []
      | Match t =>
          [pushed env p (value (getDirectorySize (path_join p name) sub)) t]
      | Recurse => found env (path_join p name) sub
      end
  end.

Definition entry_calls (env : Env) (p : Path) (here : Directory) (f : Dirent)
  : list Event :=
  match f with
  | File _ _ => []
  | Dir name sub =>
      match classify here name with
      | Skip => if (name =? "target")%string then [Enter RustCheck p] else []
      | Match node => trace (getDirectorySize (path_join p name) sub)
      | Match rust =>
          Enter RustCheck p :: trace (getDirectorySize (path_join p name) sub)
      | Recurse => calls env (path_join p name) sub
      end
  end.

(** The events that [getDirectorySize] leaves in the trace. *)

Definition size_event (e : Event) : Prop :=
  match e with
  | Enter Size _ => True
  | ConsoleError m _ => m = "Error reading directory"%string
  | _ => False
  end.

(** ** The shape of the paths a scan reaches

    Below the start path, a scan only walks through names that are not
    hidden and are neither [node_modules] nor [target]. *)

Definition walked (base p : Path) : Prop :=
  exists s, p = base ++ s /\ Forall (fun n => recursable n = true) s.

(** ** Looking a path up in the tree *)

(** The first entry of a listing with the given name. *)
Fixpoint find_entry (name : string) (files : list Dirent) : option Dirent :=
  match files with
  | [] => None
  | f :: rest =>
      if (dirent_name f =? name)%string then Some f else find_entry name rest
  end.

(** The directory that the components [rel] lead to from [d]. *)
Fixpoint resolve (d : Directory) (rel : Path) : option Directory :=
  match rel with
  | [] => Some d
  | name :: rest =>
      match d with
      | Unreadable => None
      | Listing files =>
          match find_entry name files with
          | Some (Dir _ sub) => resolve sub rest
          | _ => None
          end
      end
  end.

(** A directory tree as a file system has it: within one listing no name
    occurs twice. *)
Fixpoint nodupb (l : list string) : bool :=
  match l with
  | [] => true
  | x :: rest => negb (includes rest x) && nodupb rest
  end.

Fixpoint distinct_names (d : Directory) : bool :=
  match d with
  | Unreadable => true
  | Listing files =>
      nodupb (map dirent_name files)
      && forallb (fun f => match f with
                           | File _ _ => true
                           | Dir _ sub => distinct_names sub
                           end) files
  end.

(** [artifact_free d]: below [d] there is no directory named
    [node_modules], and no directory named [target] in a listing that has
    a [Cargo.toml]. *)
Fixpoint artifact_free (d : Directory) : bool :=
  match d with
  | Unreadable => true
  | Listing files =>
      forallb (fun f =>
                 match f with
                 | File _ _ => true
                 | Dir name sub =>
                     negb (name =? "node_modules")%string
                     && negb ((name =? "target")%string
                              && includes (map dirent_name files) "Cargo.toml")
                     && artifact_free sub
                 end) files
  end.

Definition summary (m : ProjectInfo) : Path * Z * ProjectType :=
  (path m, size m, type m).

(** ** The sum that [getDirectorySize] returns *)

Definition Zsum (l : list Z) : Z := fold_right Z.add 0 l.

(** What one entry of a listing adds to the size of the directory at [p]. *)
Definition child_size (p : Path) (f : Dirent) : Z :=
  match f with
  | Dir name sub => value (getDirectorySize (path_join p name) sub)
  | File _ (Some stat_size) => stat_size
  | File _ None => 0
  end.

Definition stat_ok (f : Dirent) : bool :=
  match f with
  | File _ None => false
  | _ => true
  end.

(** ** What identifies a match *)

Definition key (m : ProjectInfo) : Path * ProjectType := (path m, type m).

(** ** Directories that cannot be listed *)

(** The same tree with every unlistable directory listed as empty. *)
Fixpoint as_empty (d : Directory) : Directory :=
  match d with
  | Unreadable => Listing []
  | Listing files =>
      Listing (map (fun f => match f with
                             | File name st => File name st
                             | Dir name sub => Dir name (as_empty sub)
                             end) files)
  end.

Definition as_empty_entry (f : Dirent) : Dirent :=
  match f with
  | File name st => File name st
  | Dir name sub => Dir name (as_empty sub)
  end.

(** ** The earlier version against the later one *)

(** Below [d] no directory is named [target]. *)
Fixpoint no_target (d : Directory) : bool :=
  match d with
  | Unreadable => true
  | Listing files =>
      forallb (fun f =>
                 match f with
                 | File _ _ => true
                 | Dir name sub =>
                     negb (name =? "target")%string && no_target sub
                 end) files
  end.

Definition path_and_size (m : ProjectInfo) : Path * Z := (path m, size m).

Definition path_and_size_v1 (m : NodeOnly.ProjectInfo) : Path * Z :=
  (NodeOnly.path m, NodeOnly.size m).

(** The two versions agree on a run: same trace, same paths and sizes. *)
Definition agree (o : M (list NodeOnly.ProjectInfo)) (n : M (list ProjectInfo))
  : Prop :=
  trace o = trace n
  /\ map path_and_size_v1 (value o) = map path_and_size (value n).

(** ** The start path is only a prefix *)

Definition shift_event (base : Path) (e : Event) : Event :=
  match e with
  | Enter fn p => Enter fn (base ++ p)
  | ConsoleError message p => ConsoleError message (base ++ p)
  end.

Definition shift_summary (base : Path) (s : Path * Z * ProjectType)
  : Path * Z * ProjectType :=
  let '(p, size, t) := s in (base ++ p, size, t).

(** ** Sample trees *)

Definition no_env : Env := {| HOME := None; USERPROFILE := None |}.

(** [root/.cache/node_modules/] and [root/.cache/proj/{Cargo.toml,target/}]
    next to [root/src/]. *)
Definition hidden_tree : Directory :=
  Listing [ Dir ".cache"
              (Listing [ Dir "node_modules" (Listing [ File "a.js" (Some 7) ]);
                         Dir "proj"
                           (Listing [ File "Cargo.toml" (Some 1);
                                      Dir "target" (Listing []) ]) ]);
            Dir "src" (Listing [ File "main.ts" (Some 12) ]) ].

(** [root/projC/target/deps/node_modules/] without [root/projC/Cargo.toml],
    next to [root/web/node_modules/]. *)
Definition unconfirmed_tree : Directory :=
  Listing [ Dir "projC"
              (Listing [ File "README.md" (Some 5);
                         Dir "target"
                           (Listing [ Dir "deps"
                                        (Listing [ Dir "node_modules"
                                                     (Listing [ File "x" (Some 9) ]) ]) ]) ]);
            Dir "web" (Listing [ Dir "node_modules" (Listing [ File "y" (Some 4) ]) ]) ].

(** [root/app/node_modules/dep/{node_modules/,Cargo.toml,target/}]. *)
Definition nested_tree : Directory :=
  Listing [ Dir "app"
              (Listing [ Dir "node_modules"
                           (Listing [ Dir "dep"
                                        (Listing [ Dir "node_modules" (Listing [ File "i.js" (Some 3) ]);
                                                   File "Cargo.toml" (Some 2);
                                                   Dir "target" (Listing [ File "o" (Some 8) ]) ]) ]) ]) ].

(** [root/{src/{target/t,main.rs}, .git/HEAD, docs/, notes}]: a [target]
    without a [Cargo.toml] next to it, and [docs/] that cannot be listed. *)
Definition plain_tree : Directory :=
  Listing [ Dir "src" (Listing [ Dir "target" (Listing [ File "t" (Some 2) ]);
                                 File "main.rs" (Some 30) ]);
            Dir ".git" (Listing [ File "HEAD" (Some 21) ]);
            Dir "docs" Unreadable;
            File "notes" (Some 6) ].

(** [root/proj/{Cargo.toml,node_modules/,target/}]. *)
Definition both_tree : Directory :=
  Listing [ Dir "proj"
              (Listing [ File "Cargo.toml" (Some 40);
                         Dir "node_modules" (Listing [ File "m.js" (Some 5) ]);
                         Dir "target" (Listing [ File "bin" (Some 6) ]) ]) ].

(** [root/{app/{node_modules/, src/node_modules/}, .hidden/node_modules/,
    broken/, target}], the last one a file. *)
Definition node_tree : Directory :=
  Listing [ Dir "app"
              (Listing [ Dir "node_modules" (Listing [ File "a" (Some 1); File "l" None ]);
                         Dir "src" (Listing [ Dir "node_modules" (Listing [ File "b" (Some 2) ]) ]) ]);
            Dir ".hidden" (Listing [ Dir "node_modules" (Listing []) ]);
            Dir "broken" Unreadable;
            File "target" (Some 3) ].

(** Two entries in either order. *)
Definition swap {A} (b : bool) (x y : A) : list A :=
  if b then [y; x] else [x; y].

(** The tree of the end-to-end example: [root/projA/node_modules/pkg/index.js]
    of 10 bytes, [root/projB/Cargo.toml] and one file of 20 bytes in
    [root/projB/target/].  The order in which [fs.readdir] lists the two
    projects and the two entries of [projB], the name of the file in
    [target] and what [fs.stat] says of [Cargo.toml] are left open. *)
Definition end_to_end_tree (projB_first target_first : bool)
    (out : string) (cargo_stat : option Z) : Directory :=
  Listing
    (swap projB_first
       (Dir "projA"
          (Listing [ Dir "node_modules"
                       (Listing [ Dir "pkg"
                                    (Listing [ File "index.js" (Some 10) ]) ]) ]))
       (Dir "projB"
          (Listing
             (swap target_first
                (File "Cargo.toml" cargo_stat)
                (Dir "target" (Listing [ File out (Some 20) ])))))).

(** ** Trees with honest sizes *)

(** Every size that [fs.stat] reports below [d] is non-negative. *)
Fixpoint sizes_nonneg (d : Directory) : bool :=
  match d with
  | Unreadable => true
  | Listing files =>
      forallb (fun f =>
                 match f with
                 | File _ (Some stat_size) => 0 <=? stat_size
                 | File _ None => true
                 | Dir _ sub => sizes_nonneg sub
                 end) files
  end.

(** [root/{big/{a, gone, b, sub/c}}]: [gone] is a dangling link between
    files of 4 and 6 bytes. *)
Definition dangling_tree : Directory :=
  Listing [ File "a" (Some 4); File "gone" None; File "b" (Some 6);
            Dir "sub" (Listing [ File "c" (Some 8) ]) ].

(** ** src/index.ts: [deleteBuildDirectory] and the file system it changes

    For the deletion the file system is taken as a whole: a tree below
    [/], in which an absolute path is looked up. *)

(** [fs.readdir] on an absolute path: what the scan of that path is given.
    A path that leads nowhere makes [fs.readdir] throw. *)
Definition fs_readdir (fs : Directory) (p : Path) : Directory :=
  match resolve fs p with
  | Some d => d
  | None => Unreadable
  end.

(** [fs.rm(p, { recursive: true, force: true })]: the entry that [p] names
    goes with all it holds; with [force], a path that names nothing is not
    an error and nothing changes. *)
Fixpoint fs_rm (fs : Directory) (p : Path) {struct p} : Directory :=
  match p with
  | [] => fs
  | name :: rest =>
      match fs with
      | Unreadable => Unreadable
      | Listing files =>
          match rest with
          | [] =>
              Listing (filter (fun f => negb (dirent_name f =? name)%string)
                         files)
          | _ :: _ =>
              Listing (map (fun f =>
                              match f with
                              | File _ _ => f
                              | Dir n sub =>
                                  if (n =? name)%string
                                  then Dir n (fs_rm sub rest)
                                  else f
                              end) files)
          end
      end
  end.

(** The [dirPath] of [deleteBuildDirectory(projectPath, type)]. *)
Definition deleteBuildDirectory_dirPath (projectPath : Path) (t : ProjectType)
  : Path :=
  path_join projectPath
    match t with node => "node_modules" | rust => "target" end.

Definition Path_eqb (p q : Path) : bool :=
  if list_eq_dec string_dec p q then true else false.

(** The two names of artifact directories. *)
Definition artifact_name (a : string) : Prop :=
  a = "node_modules"%string \/ a = "target"%string.

(** The matches that do not stand for the directory [gone]. *)
Definition without (gone : Path) (l : list ProjectInfo) : list ProjectInfo :=
  filter (fun m => negb (Path_eqb (artifactDir m) gone)) l.

(** [/home/u/{.config/, work/{api/{Cargo.toml,target/,node_modules/},
    web/node_modules/}}]. *)
Definition home_tree : Directory :=
  Listing
    [ Dir "home"
        (Listing
           [ Dir "u"
               (Listing
                  [ Dir ".config" (Listing [ File "rc" (Some 1) ]);
                    Dir "work"
                      (Listing
                         [ Dir "api"
                             (Listing [ File "Cargo.toml" (Some 9);
                                        Dir "target" (Listing [ File "bin" (Some 70) ]);
                                        Dir "node_modules" (Listing [ File "n" (Some 30) ]) ]);
                           Dir "web"
                             (Listing [ Dir "node_modules"
                                          (Listing [ File "w" (Some 50) ]) ]) ]) ]) ]) ].

Definition home_env : Env := {| HOME := Some "/home/u"; USERPROFILE := None |}.

(** ** src/index.ts: the terminal, the prompts and [main]

    What the script is told from outside during a run is given
    beforehand: the boxes the user ticks in the checkbox prompt (by
    position in the list of choices; the prompt returns the values of the
    ticked choices), the answer to the confirm prompt, either of which may
    be a rejected promise, and the paths on which [fs.rm] fails.  Texts are
    kept without colours and without the line breaks and decoration around
    them; the formatted label of a choice is left out, its value is the
    match.  The handlers that [setupCleanup] registers only run on signals
    and at exit, which are outside this model: the call is recorded. *)

Inductive Thrown : Type :=
| ErrorObject (message : string)
| StringValue (s : string)
| OtherValue.

Inductive Promise (A : Type) : Type :=
| Resolved (a : A)
| Rejected (e : Thrown).

Arguments Resolved {A} a.
Arguments Rejected {A} e.

Record Answers : Type := {
  ticked : Promise (nat -> bool);
  confirmed : Promise bool;
  rm_throws : Path -> option Thrown
}.

Inductive Effect : Type :=
| StdoutWrite (s : string)
| ConsoleLog (s : string)
| ConsoleErrorThrown (label : string) (e : Thrown)
| Scanned (e : Event)
| SetupCleanup
| OraStart (text : string)
| OraStop
| OraSucceed (text : string)
| OraFail (text : string)
| PromptCheckbox (choices : list ProjectInfo)
| PromptConfirm (count : nat)
| FsRm (dirPath : Path).

(** [disk]: the file system below [/].  [activeSpinner]: the module
    variable, [None] for [null], else the spinner it holds, named by its
    text.  [spinning]: a spinner is drawing.  [cursorVisible]: [ora] with
    [hideCursor] hides the cursor when it starts; the model relies on
    nothing but [showCursor] to bring it back. *)
Record State : Type := {
  disk : Directory;
  activeSpinner : option string;
  spinning : bool;
  cursorVisible : bool;
  effects : list Effect
}.

(** The state when the module is loaded: [let activeSpinner = null]. *)
Definition boot (d : Directory) : State :=
  {| disk := d; activeSpinner := None; spinning := false;
     cursorVisible := true; effects := [] |}.

Definition Prog (A : Type) : Type := State -> A * State.

Definition pure {A : Type} (a : A) : Prog A := fun s => (a, s).

Definition andThen {A B : Type} (m : Prog A) (k : A -> Prog B) : Prog B :=
  fun s => let (a, s') := m s in k a s'.

Declare Scope prog_scope.
Delimit Scope prog_scope with prog.
Notation "x <- m ;; k" := (andThen m (fun x => k))
  (at level 61, m at next level, right associativity) : prog_scope.
Notation "m ;; k" := (andThen m (fun _ => k))
  (at level 61, right associativity) : prog_scope.

Definition effect (e : Effect) : Prog unit :=
  fun s => (tt, {| disk := disk s; activeSpinner := activeSpinner s;
                   spinning := spinning s; cursorVisible := cursorVisible s;
                   effects := effects s ++ [e] |}).

(** ESC [ ? 2 5 h *)
Definition show_cursor_code : string :=
  String (Ascii.ascii_of_nat 27) "[?25h".

Definition showCursor : Prog unit :=
  fun s => (tt, {| disk := disk s; activeSpinner := activeSpinner s;
                   spinning := spinning s; cursorVisible := true;
                   effects := effects s ++ [StdoutWrite show_cursor_code] |}).

(** [activeSpinner = ora({ text, hideCursor: true }).start()] *)
Definition ora_start (text : string) : Prog unit :=
  fun s => (tt, {| disk := disk s; activeSpinner := Some text;
                   spinning := true; cursorVisible := false;
                   effects := effects s ++ [OraStart text] |}).

(** [activeSpinner.stop()], [.succeed(text)], [.fail(text)]: [how] is the
    effect recorded. *)
Definition ora_end (how : Effect) : Prog unit :=
  fun s => (tt, {| disk := disk s; activeSpinner := activeSpinner s;
                   spinning := false; cursorVisible := cursorVisible s;
                   effects := effects s ++ [how] |}).

(** [activeSpinner = null] *)
Definition activeSpinner_null : Prog unit :=
  fun s => (tt, {| disk := disk s; activeSpinner := None;
                   spinning := spinning s; cursorVisible := cursorVisible s;
                   effects := effects s |}).

(** [if (activeSpinner) { ... }] *)
Definition if_activeSpinner (body : Prog unit) : Prog unit :=
  fun s =>
    match activeSpinner s with
    | Some _ => body s
    | None => (tt, s)
    end.

Definition cleanup : Prog unit :=
  (if_activeSpinner (ora_end OraStop ;; activeSpinner_null) ;;
   showCursor)%prog.

(** [await findBuildDirectories(process.cwd())] on the disk as it is. *)
Definition await_findBuildDirectories (env : Env) (cwd : Path)
  : Prog (list ProjectInfo) :=
  fun s =>
    let r := findBuildDirectories env cwd (fs_readdir (disk s) cwd) [] in
    (value r,
     {| disk := disk s; activeSpinner := activeSpinner s;
        spinning := spinning s; cursorVisible := cursorVisible s;
        effects := effects s ++ map Scanned (trace r) |}).

(** [deleteBuildDirectory]: the promise is rejected with what [fs.rm]
    throws; what a failing [fs.rm] has removed before it fails is not
    modelled, the disk is then left as it is. *)
Definition deleteBuildDirectory (a : Answers) (projectPath : Path)
    (t : ProjectType) : Prog (option Thrown) :=
  let dirPath := deleteBuildDirectory_dirPath projectPath t in
  fun s =>
    (rm_throws a dirPath,
     {| disk := match rm_throws a dirPath with
                | Some _ => disk s
                | None => fs_rm (disk s) dirPath
                end;
        activeSpinner := activeSpinner s;
        spinning := spinning s; cursorVisible := cursorVisible s;
        effects := effects s ++ [FsRm dirPath] |}).

(** [Promise.all(selectedProjects.map(...))]: every deletion is started,
    in the order of the list; the rejection reported is that of the first
    project of the list whose deletion fails. *)
Fixpoint deleteAll (a : Answers) (selectedProjects : list ProjectInfo)
  : Prog (option Thrown) :=
  match selectedProjects with
  | [] => pure None
  | project :: rest =>
      (r <- deleteBuildDirectory a (path project) (type project) ;;
       r' <- deleteAll a rest ;;
       pure match r with Some e => Some e | None => r' end)%prog
  end.

(** The values of the ticked choices, [i] being the position of the first
    choice of the list. *)
Fixpoint pick {A : Type} (ticks : nat -> bool) (i : nat) (choices : list A)
  : list A :=
  match choices with
  | [] => []
  | c :: rest =>
      if ticks i then c :: pick ticks (S i) rest else pick ticks (S i) rest
  end.

(** [e instanceof Error ? e : new Error(typeof e === "string" ? e :
    "Unknown error")], by its message. *)
Definition error_message (e : Thrown) : string :=
  match e with
  | ErrorObject message => message
  | StringValue s => s
  | OtherValue => "Unknown error"
  end.

(** The body of the [try] block of [main]: [Some e] when it throws [e]. *)
Definition main_try (a : Answers) (projects : list ProjectInfo)
  : Prog (option Thrown) :=
  (effect (PromptCheckbox projects) ;;
   match ticked a with
   | Rejected e => pure (Some e)
   | Resolved ticks =>
       let selectedProjects := pick ticks 0 projects in
       if (List.length selectedProjects =? 0)%nat then
         effect (ConsoleLog "No projects selected.") ;;
         pure None
       else
         effect (PromptConfirm (List.length selectedProjects)) ;;
         match confirmed a with
         | Rejected e => pure (Some e)
         | Resolved false =>
             effect (ConsoleLog "Operation cancelled.") ;;
             pure None
         | Resolved true =>
             ora_start "Deleting selected build directories..." ;;
             failed <- deleteAll a selectedProjects ;;
             match failed with
             | None =>
                 ora_end
                   (OraSucceed
                      "Successfully deleted selected build directories.")
             | Some error =>
                 ora_end (OraFail "Error deleting build directories:") ;;
                 effect (ConsoleErrorThrown "" error)
             end ;;
             pure None
         end
   end)%prog.

Definition main_catch (thrown : option Thrown) : Prog unit :=
  match thrown with
  | None => pure tt
  | Some e =>
      if (error_message e =? "User force closed the prompt")%string then pure tt
      else effect (ConsoleErrorThrown "An error occurred:"
                     (ErrorObject (error_message e)))
  end.

Definition main (env : Env) (cwd : Path) (a : Answers) : Prog unit :=
  (showCursor ;;
   effect SetupCleanup ;;
   effect (ConsoleLog "Project Build Directory Cleaner") ;;
   effect (ConsoleLog
             "Supports Node.js (node_modules) and Rust (target) projects") ;;
   ora_start "Searching for build directories..." ;;
   projects <- await_findBuildDirectories env cwd ;;
   ora_end OraStop ;;
   activeSpinner_null ;;
   showCursor ;;
   if (List.length projects =? 0)%nat then
     effect (ConsoleLog "No build directories found.")
   else
     thrown <- main_try a projects ;;
     main_catch thrown ;;
     cleanup)%prog.

(** The state in which [main] leaves a freshly loaded module. *)
Definition run (env : Env) (cwd : Path) (a : Answers) (d : Directory) : State :=
  snd (main env cwd a (boot d)).

(** The paths handed to [fs.rm], in order. *)
Definition removals (l : list Effect) : list Path :=
  flat_map (fun e => match e with FsRm p => [p] | _ => [] end) l.

(** The disk after [fs.rm] on each path of [l] that it does not fail on. *)
Definition remove_each (a : Answers) (l : list Path) (d : Directory)
  : Directory :=
  fold_left (fun d p => match rm_throws a p with
                        | Some _ => d
                        | None => fs_rm d p
                        end) l d.

(** The user ticks the first and the third choice and confirms; [fs.rm]
    never fails. *)
Definition first_and_third : Answers :=
  {| ticked := Resolved (fun i => (i =? 0)%nat || (i =? 2)%nat);
     confirmed := Resolved true;
     rm_throws := fun _ => None |}.

(** The user ticks the first choice and then answers no. *)
Definition ticks_then_declines : Answers :=
  {| ticked := Resolved (fun i => (i =? 0)%nat);
     confirmed := Resolved false;
     rm_throws := fun _ => None |}.

(** The projects whose artifact directories [main] deletes: the ticked
    ones, when the confirm prompt is answered with yes. *)
Definition selected (a : Answers) (projects : list ProjectInfo)
  : list ProjectInfo :=
  match ticked a, confirmed a with
  | Resolved ticks, Resolved true => pick ticks 0 projects
  | _, _ => []
  end.

(** The first rejection among the deletions of [l]. *)
Fixpoint first_failure (a : Answers) (l : list ProjectInfo) : option Thrown :=
  match l with
  | [] => None
  | m :: rest =>
      match rm_throws a (artifactDir m) with
      | Some e => Some e
      | None => first_failure a rest
      end
  end.

(** The matches that stand for none of the directories [gone]. *)
Definition without_all (gone : list Path) (l : list ProjectInfo)
  : list ProjectInfo :=
  filter (fun m => negb (existsb (Path_eqb (artifactDir m)) gone)) l.

(** What [main] writes and asks before the scan, and between the scan and
    the test of its result. *)
Definition before_scan : list Effect :=
  [ StdoutWrite show_cursor_code; SetupCleanup;
    ConsoleLog "Project Build Directory Cleaner";
    ConsoleLog "Supports Node.js (node_modules) and Rust (target) projects";
    OraStart "Searching for build directories..." ].

Definition after_scan : list Effect :=
  [ OraStop; StdoutWrite show_cursor_code ].

(** ** The earlier version, entry by entry *)

Definition found_v1 (p : Path) (d : Directory) : list NodeOnly.ProjectInfo :=
  value (NodeOnly.findNodeModules p d []).

Definition entry_found_v1 (p : Path) (f : Dirent) : list NodeOnly.ProjectInfo :=
  match f with
  | File _ _ => []
  | Dir name sub =>
      if (name =? "node_modules")%string then
        [ {| NodeOnly.path := p;
             NodeOnly.size :=
               value (NodeOnly.getDirectorySize (path_join p name) sub) |} ]
      else if negb (startsWith name ".")
              && negb (name =? "node_modules")%string then
        found_v1 (path_join p name) sub
      else []
  end.

(** [root/{lib/node_modules/, target/{debug/node_modules/}}], without a
    [Cargo.toml]. *)
Definition target_tree : Directory :=
  Listing [ Dir "lib" (Listing [ Dir "node_modules" (Listing [ File "a" (Some 3) ]) ]);
            Dir "target"
              (Listing [ Dir "debug"
                           (Listing [ Dir "node_modules"
                                        (Listing [ File "b" (Some 4) ]) ]) ]) ].

(** What the [catch] block of [main] writes for a thrown [e], followed by
    the write of [cleanup] when no spinner is held. *)
Definition caught (e : Thrown) : list Effect :=
  (if (error_message e =? "User force closed the prompt")%string then []
   else [ConsoleErrorThrown "An error occurred:"
           (ErrorObject (error_message e))])
  ++ [StdoutWrite show_cursor_code].

(** The effects of [main] after the checkbox prompt is shown. *)
Definition after_prompt (a : Answers) (projects : list ProjectInfo)
  : list Effect :=
  match ticked a with
  | Rejected e => caught e
  | Resolved ticks =>
      if (List.length (pick ticks 0 projects) =? 0)%nat then
        [ConsoleLog "No projects selected."; StdoutWrite show_cursor_code]
      else
        PromptConfirm (List.length (pick ticks 0 projects))
        :: match confirmed a with
           | Rejected e => caught e
           | Resolved false =>
               [ConsoleLog "Operation cancelled.";
                StdoutWrite show_cursor_code]
           | Resolved true =>
               OraStart "Deleting selected build directories..."
               :: map FsRm (map artifactDir (pick ticks 0 projects))
               ++ match first_failure a (pick ticks 0 projects) with
                  | None =>
                      [OraSucceed
                         "Successfully deleted selected build directories."]
                  | Some e =>
                      [OraFail "Error deleting build directories:";
                       ConsoleErrorThrown "" e]
                  end
               ++ [OraStop; StdoutWrite show_cursor_code]
           end
  end.

(** [fs.rm] fails on the [target] of [api]; the user ticks everything and
    confirms. *)
Definition target_locked : Answers :=
  {| ticked := Resolved (fun _ => true);
     confirmed := Resolved true;
     rm_throws := fun p =>
       if Path_eqb p ["home"; "u"; "work"; "api"; "target"]
       then Some (ErrorObject "EACCES") else None |}.

(** The user closes the checkbox prompt. *)
Definition closes_prompt : Answers :=
  {| ticked := Rejected (ErrorObject "User force closed the prompt");
     confirmed := Resolved true;
     rm_throws := fun _ => None |}.

(** [root/node_modules/{pkg/node_modules/i.js, node_modules/x}], scanned
    from [root/node_modules]. *)
Definition inside_tree : Directory :=
  Listing [ Dir "pkg"
              (Listing [ Dir "node_modules"
                           (Listing [ File "i.js" (Some 3) ]) ]);
            Dir "node_modules" (Listing [ File "x" (Some 5) ]) ].

(** * Reasoning principles *)

(** ** The monad *)

Lemma value_ret {A} (a : A) : value (ret a) = a.
Proof. reflexivity. Qed.

Lemma trace_ret {A} (a : A) : trace (ret a) = [].
Proof. reflexivity. Qed.

Lemma value_bind {A B} (m : M A) (k : A -> M B) :
  value (bind m k) = value (k (value m)).
Proof.
  unfold bind, value. destruct m as [a t1]; simpl.
  now destruct (k a).
Qed.

Lemma trace_bind {A B} (m : M A) (k : A -> M B) :
  trace (bind m k) = trace m ++ trace (k (value m)).
Proof.
  unfold bind, value, trace. destruct m as [a t1]; simpl.
  now destruct (k a).
Qed.

Lemma M_eq {A} (m : M A) : m = (value m, trace m).
Proof. now destruct m. Qed.

Lemma M_ext {A} (m1 m2 : M A) :
  value m1 = value m2 -> trace m1 = trace m2 -> m1 = m2.
Proof. destruct m1, m2; simpl; congruence. Qed.

(** ** The scan, entry by entry *)

Lemma path_dirname_join (p : Path) (name : string) :
  path_dirname (path_join p name) = p.
Proof. apply removelast_last. Qed.

Lemma isRustProject_spec (p : Path) (here : Directory) :
  isRustProject p here = (hasCargo here, [Enter RustCheck p]).
Proof. now destruct here. Qed.

Ltac run_M :=
  repeat (rewrite ?value_bind, ?trace_bind, ?value_ret, ?trace_ret,
            ?path_dirname_join, ?isRustProject_spec, ?app_nil_r;
          cbn [value trace fst snd emit ret app]).

Section LoopSpec.
Variable env : Env.
Variable p : Path.
Variable here : Directory.

Lemma findBuildDirectories_loop_spec (files : list Dirent) :
  (forall name sub, In (Dir name sub) files ->
     forall q rs,
       findBuildDirectories env q sub rs
       = (rs ++ found env q sub, calls env q sub)) ->
  forall rs,
    findBuildDirectories_loop env (findBuildDirectories env) p here files rs
    = (rs ++ flat_map (entry_found env p here) files,
       flat_map (entry_calls env p here) files).
Proof.
  induction files as [|f rest IH]; intros Hsub rs.
  - cbn. now rewrite app_nil_r.
  - assert (Hrest : forall name sub, In (Dir name sub) rest ->
              forall q rs0, findBuildDirectories env q sub rs0
                            = (rs0 ++ found env q sub, calls env q sub))
      by (intros; apply (Hsub name); now right).
    destruct f as [name st | name sub].
    + cbn [findBuildDirectories_loop flat_map entry_found entry_calls app].
      now apply IH.
    + cbn [findBuildDirectories_loop flat_map entry_found entry_calls
             dirent_name].
      unfold classify, recursable.
      destruct (name =? "node_modules")%string eqn:Enm.
      * apply M_ext; run_M; rewrite (IH Hrest); run_M.
        -- now rewrite <- app_assoc.
        -- reflexivity.
      * destruct (name =? "target")%string eqn:Etg;
          cbn [andb negb]; run_M.
        -- destruct (hasCargo here) eqn:Hc.
           ++ apply M_ext; run_M; rewrite (IH Hrest); run_M.
              ** now rewrite <- app_assoc.
              ** reflexivity.
           ++ rewrite andb_false_r.
              apply M_ext; run_M; rewrite (IH Hrest); run_M; reflexivity.
        -- destruct (negb (startsWith name ".")) eqn:Hh; cbn [andb].
           ++ apply M_ext; run_M;
                rewrite (Hsub name sub (or_introl eq_refl));
                rewrite (IH Hrest); run_M.
              ** now rewrite <- app_assoc.
              ** reflexivity.
           ++ apply M_ext; run_M; rewrite (IH Hrest); run_M; reflexivity.
Qed.
End LoopSpec.

Theorem findBuildDirectories_spec (env : Env) (d : Directory) :
  forall p rs,
    findBuildDirectories env p d rs = (rs ++ found env p d, calls env p d).
Proof.
  induction d as [|files IH] using Directory_tree_ind; intros p rs.
  - cbn. now rewrite app_nil_r.
  - unfold found, calls.
    cbn [findBuildDirectories].
    apply M_ext; run_M;
      rewrite !(findBuildDirectories_loop_spec env p (Listing files) files IH);
      reflexivity.
Qed.

Lemma found_Unreadable env p : found env p Unreadable = [].
Proof. reflexivity. Qed.

Lemma found_Listing env p files :
  found env p (Listing files)
  = flat_map (entry_found env p (Listing files)) files.
Proof.
  unfold found. cbn [findBuildDirectories]. run_M.
  rewrite (findBuildDirectories_loop_spec env p (Listing files) files).
  - reflexivity.
  - intros; apply findBuildDirectories_spec.
Qed.

Lemma calls_Unreadable env p :
  calls env p Unreadable
  = [Enter Search p; ConsoleError "Error searching in" p].
Proof. reflexivity. Qed.

Lemma calls_Listing env p files :
  calls env p (Listing files)
  = Enter Search p :: flat_map (entry_calls env p (Listing files)) files.
Proof.
  unfold calls. cbn [findBuildDirectories]. run_M.
  rewrite (findBuildDirectories_loop_spec env p (Listing files) files).
  - reflexivity.
  - intros; apply findBuildDirectories_spec.
Qed.

(** ** The cases of [classify] *)

Lemma classify_Recurse here name :
  classify here name = Recurse -> recursable name = true.
Proof.
  unfold classify.
  destruct (name =? "node_modules")%string; [discriminate|].
  destruct ((name =? "target")%string && hasCargo here); [discriminate|].
  now destruct (recursable name).
Qed.

Lemma classify_Match_node here name :
  classify here name = Match node -> name = "node_modules"%string.
Proof.
  unfold classify.
  destruct (name =? "node_modules")%string eqn:E.
  - intros _. now apply String.eqb_eq.
  - destruct ((name =? "target")%string && hasCargo here); [discriminate|].
    now destruct (recursable name).
Qed.

Lemma classify_Match_rust here name :
  classify here name = Match rust ->
  name = "target"%string /\ hasCargo here = true.
Proof.
  unfold classify.
  destruct (name =? "node_modules")%string; [discriminate|].
  destruct (name =? "target")%string eqn:E; cbn [andb].
  - destruct (hasCargo here); [|now destruct (recursable name)].
    intros _. split; [now apply String.eqb_eq | reflexivity].
  - now destruct (recursable name).
Qed.

Lemma recursable_not_artifact name :
  recursable name = true ->
  name <> "node_modules"%string /\ name <> "target"%string
  /\ startsWith name "." = false.
Proof.
  unfold recursable. intros H.
  apply andb_true_iff in H as [H Ht].
  apply andb_true_iff in H as [Hh Hn].
  apply negb_true_iff in Ht, Hn, Hh.
  apply String.eqb_neq in Ht, Hn. auto.
Qed.

(** ** The trace of the size accumulator *)

Lemma getDirectorySize_loop_acc rec p files :
  forall size,
    getDirectorySize_loop rec p files size
    = (size + value (getDirectorySize_loop rec p files 0),
       trace (getDirectorySize_loop rec p files 0)).
Proof.
  induction files as [|f rest IH]; intros sz.
  - cbn. now rewrite Z.add_0_r.
  - destruct f as [name [st|] | name sub];
      cbn [getDirectorySize_loop].
    + rewrite (IH (sz + st)), (IH (0 + st)). cbn [value trace fst snd].
      f_equal. lia.
    + cbn. now rewrite Z.add_0_r.
    + apply M_ext; run_M;
        rewrite (IH (sz + _)), (IH (0 + _)); cbn [value trace fst snd];
        [lia | reflexivity].
Qed.

Lemma getDirectorySize_trace_kind (d : Directory) :
  forall p, Forall size_event (trace (getDirectorySize p d)).
Proof.
  induction d as [|files IH] using Directory_tree_ind; intros p.
  - cbn. repeat constructor.
  - cbn [getDirectorySize]. run_M. constructor; [exact I|].
    generalize 0 as sz.
    induction files as [|f rest IHl]; intros sz.
    + constructor.
    + assert (IHrest : forall name sub, In (Dir name sub) rest ->
                forall p0, Forall size_event (trace (getDirectorySize p0 sub)))
        by (intros; apply (IH name); now right).
      destruct f as [name [st|] | name sub]; cbn [getDirectorySize_loop].
      * now apply IHl.
      * cbn. repeat constructor.
      * run_M. apply Forall_app. split.
        -- apply (IH name). now left.
        -- now apply IHl.
Qed.

Lemma getDirectorySize_no_search p d fn q :
  In (Enter fn q) (trace (getDirectorySize p d)) -> fn = Size.
Proof.
  intros H.
  pose proof (getDirectorySize_trace_kind d p) as HF.
  rewrite Forall_forall in HF. specialize (HF _ H).
  now destruct fn.
Qed.

(** ** The paths a scan reaches *)

Lemma walked_refl base : walked base base.
Proof. exists []. now rewrite app_nil_r. Qed.

Lemma walked_step base name p :
  recursable name = true -> walked (path_join base name) p -> walked base p.
Proof.
  intros Hn (s & -> & Hs). exists (name :: s). split.
  - unfold path_join. now rewrite <- app_assoc.
  - now constructor.
Qed.

Lemma found_walked env (d : Directory) :
  forall base m, In m (found env base d) -> walked base (path m).
Proof.
  induction d as [|files IH] using Directory_tree_ind; intros base m Hm.
  - contradiction.
  - rewrite found_Listing in Hm.
    apply in_flat_map in Hm as (f & Hf & Hm).
    destruct f as [name st | name sub]; [contradiction|].
    cbn [entry_found] in Hm.
    destruct (classify (Listing files) name) eqn:Hc.
    + contradiction.
    + destruct Hm as [<-|[]]. apply walked_refl.
    + apply (walked_step base name); [now apply classify_Recurse in Hc|].
      now apply (IH name sub).
Qed.

Lemma calls_walked env (d : Directory) :
  forall base fn q, In (Enter fn q) (calls env base d) ->
                    fn <> Size -> walked base q.
Proof.
  induction d as [|files IH] using Directory_tree_ind; intros base fn q Hq Hfn.
  - rewrite calls_Unreadable in Hq.
    destruct Hq as [Hq|[Hq|[]]]; [|discriminate].
    injection Hq as _ <-. apply walked_refl.
  - rewrite calls_Listing in Hq.
    destruct Hq as [Hq|Hq]; [injection Hq as _ <-; apply walked_refl|].
    apply in_flat_map in Hq as (f & Hf & Hq).
    destruct f as [name st | name sub]; [contradiction|].
    cbn [entry_calls] in Hq.
    destruct (classify (Listing files) name) as [|[|]|] eqn:Hc.
    + destruct (name =? "target")%string; [|contradiction].
      destruct Hq as [Hq|[]]. injection Hq as _ <-. apply walked_refl.
    + now apply getDirectorySize_no_search in Hq.
    + destruct Hq as [Hq|Hq].
      * injection Hq as _ <-. apply walked_refl.
      * now apply getDirectorySize_no_search in Hq.
    + apply (walked_step base name); [now apply classify_Recurse in Hc|].
      now apply (IH name sub Hf _ fn).
Qed.

Lemma walked_through base pre name post :
  walked base (base ++ pre ++ name :: post) -> recursable name = true.
Proof.
  intros (s & E & Hs).
  apply app_inv_head in E. subst s.
  apply Forall_app in Hs as [_ Hs].
  now inversion Hs.
Qed.

(** ** Lookup in a tree without repeated names *)

Lemma includes_In l x : includes l x = true <-> In x l.
Proof.
  unfold includes. rewrite existsb_exists. split.
  - intros (y & Hy & E). apply String.eqb_eq in E. now subst.
  - intros H. exists x. split; [assumption | apply String.eqb_refl].
Qed.

Lemma nodupb_NoDup l : nodupb l = true -> NoDup l.
Proof.
  induction l as [|x rest IH]; cbn [nodupb]; intros H; constructor.
  - apply andb_true_iff in H as [H _]. apply negb_true_iff in H.
    intros Hin. apply includes_In in Hin. congruence.
  - apply IH. now apply andb_true_iff in H as [_ H].
Qed.

Lemma distinct_names_Listing files :
  distinct_names (Listing files) = true ->
  NoDup (map dirent_name files)
  /\ forall name sub, In (Dir name sub) files -> distinct_names sub = true.
Proof.
  cbn [distinct_names]. intros H. apply andb_true_iff in H as [Hn Hf].
  split; [now apply nodupb_NoDup|].
  intros name sub Hin. rewrite forallb_forall in Hf.
  exact (Hf _ Hin).
Qed.

Lemma find_entry_distinct files f :
  NoDup (map dirent_name files) -> In f files ->
  find_entry (dirent_name f) files = Some f.
Proof.
  induction files as [|g rest IH]; intros Hnd Hin; [contradiction|].
  cbn [map] in Hnd. inversion Hnd as [|? ? Hnotin Hnd']; subst.
  cbn [find_entry]. destruct Hin as [->|Hin].
  - now rewrite String.eqb_refl.
  - destruct (dirent_name g =? dirent_name f)%string eqn:E.
    + apply String.eqb_eq in E. exfalso. apply Hnotin. rewrite E.
      now apply in_map.
    + now apply IH.
Qed.

(** Every match of a scan stands for a directory of the tree that
    [classify] takes for an artifact directory, and carries its size. *)
Lemma found_sound env (d : Directory) :
  distinct_names d = true ->
  forall base m, In m (found env base d) ->
    exists rel files name sub,
      path m = base ++ rel
      /\ resolve d rel = Some (Listing files)
      /\ In (Dir name sub) files
      /\ classify (Listing files) name = Match (type m)
      /\ size m = value (getDirectorySize (path_join (path m) name) sub).
Proof.
  induction d as [|files IH] using Directory_tree_ind; intros Hwf base m Hm.
  - contradiction.
  - apply distinct_names_Listing in Hwf as [Hnd Hsub].
    rewrite found_Listing in Hm.
    apply in_flat_map in Hm as (f & Hf & Hm).
    destruct f as [name st | name sub]; [contradiction|].
    cbn [entry_found] in Hm.
    destruct (classify (Listing files) name) eqn:Hc.
    + contradiction.
    + destruct Hm as [<-|[]].
      exists [], files, name, sub. cbn [pushed path type size resolve].
      now rewrite app_nil_r.
    + destruct (IH name sub Hf (Hsub name sub Hf) _ _ Hm)
        as (rel & files' & name' & sub' & Hp & Hr & Hin & Hcl & Hsz).
      exists (name :: rel), files', name', sub'.
      repeat split; try assumption.
      * rewrite Hp. unfold path_join. now rewrite <- app_assoc.
      * cbn [resolve].
        pose proof (find_entry_distinct files (Dir name sub) Hnd Hf) as Hfe.
        cbn [dirent_name] in Hfe. now rewrite Hfe.
Qed.

(** * The properties of the scan *)

Lemma artifactDir_below_path d m x q :
  artifactDir m = d ++ x :: q -> exists q', path m = d ++ q'.
Proof.
  intros E.
  destruct (exists_last (l := x :: q)) as (q' & z & Eq); [discriminate|].
  rewrite Eq, app_assoc in E. unfold artifactDir, path_join in E.
  apply app_inj_tail in E as [E _]. now exists q'.
Qed.

Lemma artifactDir_name m :
  exists a, artifactDir m = path m ++ [a] /\ recursable a = false.
Proof.
  unfold artifactDir, path_join.
  destruct (type m); eexists; (split; [reflexivity|reflexivity]).
Qed.

(** C7. A directory whose name begins with [.] is never entered by the
    scan, wherever it lies below the start path: [findBuildDirectories]
    (and [isRustProject]) is never called on it or on anything below it,
    and no match of the result stands for an artifact directory at or
    below it. *)
Theorem hidden_directories_never_entered :
  forall env base root pre h post,
    startsWith h "." = true ->
    (forall fn, fn <> Size ->
       ~ In (Enter fn (base ++ pre ++ h :: post)) (trace (scan env base root)))
    /\ (forall m, In m (value (scan env base root)) ->
          artifactDir m <> base ++ pre ++ h :: post).
Proof.
  intros env base root pre h post Hh.
  assert (Hrec : recursable h = false).
  { unfold recursable. now rewrite Hh. }
  assert (Hno : forall post', ~ walked base (base ++ pre ++ h :: post')).
  { intros post' W. apply walked_through in W. congruence. }
  split.
  - intros fn Hfn Hin. apply (Hno post).
    exact (calls_walked env root base fn _ Hin Hfn).
  - intros m Hm E.
    pose proof (found_walked env root base m Hm) as W.
    destruct post as [|x q].
    + unfold artifactDir, path_join in E. rewrite app_assoc in E.
      apply app_inj_tail in E as [_ Eh]. rewrite <- Eh in Hh.
      destruct (type m); discriminate Hh.
    + rewrite app_assoc in E.
      change (h :: x :: q) with ([h] ++ x :: q) in E. rewrite app_assoc in E.
      apply artifactDir_below_path in E as (q' & E).
      rewrite <- !app_assoc in E. cbn [app] in E.
      rewrite E in W. exact (Hno q' W).
Qed.

Lemma hidden_directories_never_entered_witness :
  startsWith ".cache" "." = true
  /\ ((forall fn, fn <> Size ->
         ~ In (Enter fn (["root"] ++ [] ++ ".cache" :: ["proj"]))
              (trace (scan no_env ["root"] hidden_tree)))
      /\ (forall m, In m (value (scan no_env ["root"] hidden_tree)) ->
            artifactDir m <> ["root"] ++ [] ++ ".cache" :: ["proj"])).
Proof.
  split.
  - reflexivity.
  - apply (hidden_directories_never_entered no_env ["root"] hidden_tree
             [] ".cache" ["proj"]).
    reflexivity.
Defined.

(** C3. The scan never descends into a directory it has matched: for every
    match [m] of the result, [findBuildDirectories] (and [isRustProject])
    is never called on the artifact directory of [m] or on anything below
    it, and no match of the result stands for an artifact directory below
    the one of [m], whatever names and marker files lie there. *)
Theorem matched_directories_never_entered :
  forall env base root m,
    In m (value (scan env base root)) ->
    (forall fn q, fn <> Size ->
       ~ In (Enter fn (artifactDir m ++ q)) (trace (scan env base root)))
    /\ (forall m' x q, In m' (value (scan env base root)) ->
          artifactDir m' <> artifactDir m ++ x :: q).
Proof.
  intros env base root m Hm.
  assert (Hno : forall q, ~ walked base (artifactDir m ++ q)).
  { intros q.
    destruct (found_walked env root base m Hm) as (s & E & _).
    destruct (artifactDir_name m) as (a & Ea & Hrec).
    rewrite Ea, E, <- !app_assoc. cbn [app].
    intros W. apply walked_through in W. congruence. }
  split.
  - intros fn q Hfn Hin. apply (Hno q).
    exact (calls_walked env root base fn _ Hin Hfn).
  - intros m' x q Hm' E.
    apply artifactDir_below_path in E as (q' & E).
    apply (Hno q'). rewrite <- E.
    exact (found_walked env root base m' Hm').
Qed.

Lemma matched_directories_never_entered_witness :
  In (pushed no_env ["root"; "app"] 13 node)
     (value (scan no_env ["root"] nested_tree))
  /\ ((forall fn q, fn <> Size ->
         ~ In (Enter fn (artifactDir (pushed no_env ["root"; "app"] 13 node)
                         ++ q))
              (trace (scan no_env ["root"] nested_tree)))
      /\ (forall m' x q, In m' (value (scan no_env ["root"] nested_tree)) ->
            artifactDir m'
            <> artifactDir (pushed no_env ["root"; "app"] 13 node) ++ x :: q)).
Proof.
  assert (H : In (pushed no_env ["root"; "app"] 13 node)
                 (value (scan no_env ["root"] nested_tree)))
    by (left; reflexivity).
  split.
  - exact H.
  - exact (matched_directories_never_entered no_env ["root"] nested_tree
             (pushed no_env ["root"; "app"] 13 node) H).
Defined.

(** C2. A directory named [target] whose parent lists no [Cargo.toml]
    (the test of [isRustProject]: no entry of that name in the parent's
    listing) gets no match, and the scan never enters it: in a tree whose
    listings repeat no name, no match of the result stands for that
    directory or for an artifact directory below it, and
    [findBuildDirectories] (and [isRustProject]) is never called on it or
    below it. *)
Theorem unconfirmed_target_skipped :
  forall env base root rel files sub,
    distinct_names root = true ->
    resolve root rel = Some (Listing files) ->
    In (Dir "target" sub) files ->
    includes (map dirent_name files) "Cargo.toml" = false ->
    (forall m q, In m (value (scan env base root)) ->
       artifactDir m <> path_join (base ++ rel) "target" ++ q)
    /\ (forall fn q, fn <> Size ->
          ~ In (Enter fn (path_join (base ++ rel) "target" ++ q))
               (trace (scan env base root))).
Proof.
  intros env base root rel files sub Hwf Hres Hin Hcargo.
  assert (Hno : forall q,
             ~ walked base (path_join (base ++ rel) "target" ++ q)).
  { intros q W. unfold path_join in W. rewrite <- !app_assoc in W.
    cbn [app] in W. apply walked_through in W. discriminate. }
  split.
  - intros m [|x q] Hm E.
    + rewrite app_nil_r in E.
      destruct (found_sound env root Hwf base m Hm)
        as (rel' & files' & name' & sub' & Hp & Hr & _ & Hcl & _).
      unfold artifactDir, path_join in E.
      apply app_inj_tail in E as [Ep Et].
      rewrite Hp in Ep. apply app_inv_head in Ep. subst rel'.
      rewrite Hres in Hr. injection Hr as <-.
      destruct (type m) eqn:Ety; [discriminate|].
      apply classify_Match_rust in Hcl as [_ Hc].
      cbn [hasCargo] in Hc. congruence.
    + apply artifactDir_below_path in E as (q' & E).
      apply (Hno q'). rewrite <- E.
      exact (found_walked env root base m Hm).
  - intros fn q Hfn H. apply (Hno q).
    exact (calls_walked env root base fn _ H Hfn).
Qed.

Lemma unconfirmed_target_skipped_witness :
  distinct_names unconfirmed_tree = true
  /\ (forall m q, In m (value (scan no_env ["root"] unconfirmed_tree)) ->
        artifactDir m <> path_join (["root"] ++ ["projC"]) "target" ++ q)
  /\ (forall fn q, fn <> Size ->
        ~ In (Enter fn (path_join (["root"] ++ ["projC"]) "target" ++ q))
             (trace (scan no_env ["root"] unconfirmed_tree))).
Proof.
  split.
  - reflexivity.
  - apply (unconfirmed_target_skipped no_env ["root"] unconfirmed_tree
             ["projC"]
             [ File "README.md" (Some 5);
               Dir "target"
                 (Listing [ Dir "deps"
                              (Listing [ Dir "node_modules"
                                           (Listing [ File "x" (Some 9) ]) ]) ]) ]
             (Listing [ Dir "deps"
                          (Listing [ Dir "node_modules"
                                       (Listing [ File "x" (Some 9) ]) ]) ])).
    + reflexivity.
    + reflexivity.
    + right. left. reflexivity.
    + reflexivity.
Defined.

Lemma flat_map_nil {A B} (g : A -> list B) (l : list A) :
  (forall a, In a l -> g a = []) -> flat_map g l = [].
Proof.
  induction l as [|a l IH]; intros H; [reflexivity|].
  cbn [flat_map]. rewrite (H a (or_introl eq_refl)), IH; [reflexivity|].
  intros b Hb. apply H. now right.
Qed.

(** C8. On a tree that holds no directory named [node_modules] and no
    directory named [target] whose parent lists a [Cargo.toml], the scan
    returns the empty sequence. *)
Theorem no_artifacts_no_matches :
  forall env base root,
    artifact_free root = true ->
    value (scan env base root) = [].
Proof.
  intros env base root. revert base.
  change (forall base, artifact_free root = true -> found env base root = []).
  induction root as [|files IH] using Directory_tree_ind; intros base Hfree.
  - reflexivity.
  - rewrite found_Listing. apply flat_map_nil.
    intros f Hf. destruct f as [name st | name sub]; [reflexivity|].
    cbn [artifact_free] in Hfree. rewrite forallb_forall in Hfree.
    specialize (Hfree _ Hf). cbn beta iota in Hfree.
    apply andb_true_iff in Hfree as [Hfree Hsub].
    apply andb_true_iff in Hfree as [Hnm Htg].
    apply negb_true_iff in Hnm, Htg.
    cbn [entry_found]. unfold classify. cbn [hasCargo].
    rewrite Hnm, Htg.
    destruct (recursable name); [|reflexivity].
    now apply (IH name sub Hf).
Qed.

Lemma no_artifacts_no_matches_witness :
  artifact_free plain_tree = true
  /\ value (scan no_env ["root"] plain_tree) = [].
Proof.
  split.
  - reflexivity.
  - apply (no_artifacts_no_matches no_env ["root"] plain_tree). reflexivity.
Defined.

(** C5. On the tree with [root/projA/node_modules/pkg/index.js] of 10
    bytes and [root/projB/target/] holding one file of 20 bytes next to
    [root/projB/Cargo.toml], the scan of [root] returns exactly two
    matches, in the order of the listing of [root]: [root/projA] with size
    10 and type [node], and [root/projB] with size 20 and type [rust]. *)
Theorem end_to_end_two_matches :
  forall env projB_first target_first out cargo_stat,
    map summary
      (value (scan env ["root"]
                (end_to_end_tree projB_first target_first out cargo_stat)))
    = swap projB_first
        (["root"; "projA"], 10, node)
        (["root"; "projB"], 20, rust).
Proof.
  intros env [|] [|] out cargo_stat; reflexivity.
Qed.

Lemma getDirectorySize_loop_sum p files :
  forallb stat_ok files = true ->
  value (getDirectorySize_loop getDirectorySize p files 0)
  = Zsum (map (child_size p) files).
Proof.
  induction files as [|f rest IH]; intros Hok; [reflexivity|].
  cbn [forallb] in Hok. apply andb_true_iff in Hok as [Hf Hrest].
  destruct f as [name [st|] | name sub]; try discriminate;
    cbn [getDirectorySize_loop map Zsum fold_right child_size dirent_name].
  - rewrite getDirectorySize_loop_acc. cbn [value fst].
    rewrite (IH Hrest). unfold Zsum. lia.
  - run_M. rewrite getDirectorySize_loop_acc. cbn [value fst].
    rewrite (IH Hrest). unfold Zsum. lia.
Qed.

Lemma Zsum_Permutation l l' : Permutation l l' -> Zsum l = Zsum l'.
Proof.
  induction 1; cbn [Zsum fold_right] in *; unfold Zsum in *; lia.
Qed.

Lemma forallb_Permutation {A} (f : A -> bool) l l' :
  Permutation l l' -> forallb f l' = true -> forallb f l = true.
Proof.
  intros HP H. rewrite forallb_forall in *. intros x Hx.
  apply H. now apply (Permutation_in x HP).
Qed.

Lemma app_cons_neq {A} (l s : list A) (a : A) : l <> l ++ a :: s.
Proof.
  intros E. apply (f_equal (@List.length A)) in E.
  rewrite length_app in E. cbn [List.length] in E. lia.
Qed.

Lemma entry_found_key env base here name sub m :
  In m (entry_found env base here (Dir name sub)) ->
  (path m = base /\ classify here name = Match (type m))
  \/ (exists s, path m = base ++ name :: s).
Proof.
  cbn [entry_found]. destruct (classify here name) eqn:Hc; intros Hm.
  - contradiction.
  - destruct Hm as [<-|[]]. now left.
  - right. destruct (found_walked env sub _ _ Hm) as (s & E & _).
    exists s. rewrite E. unfold path_join. now rewrite <- app_assoc.
Qed.

Lemma classify_Match_name here t n1 n2 :
  classify here n1 = Match t -> classify here n2 = Match t -> n1 = n2.
Proof.
  destruct t; intros H1 H2.
  - apply classify_Match_node in H1, H2. congruence.
  - apply classify_Match_rust in H1 as [H1 _], H2 as [H2 _]. congruence.
Qed.

Lemma entry_found_disjoint env base here n1 sub1 n2 sub2 m1 m2 :
  n1 <> n2 ->
  In m1 (entry_found env base here (Dir n1 sub1)) ->
  In m2 (entry_found env base here (Dir n2 sub2)) ->
  key m1 <> key m2.
Proof.
  intros Hn H1 H2 E. unfold key in E. injection E as Ep Et.
  apply entry_found_key in H1, H2.
  destruct H1 as [[P1 C1]|(s1 & P1)], H2 as [[P2 C2]|(s2 & P2)].
  - rewrite Et in C1. exact (Hn (classify_Match_name _ _ _ _ C1 C2)).
  - rewrite P1, P2 in Ep. exact (app_cons_neq _ _ _ Ep).
  - rewrite P1, P2 in Ep. symmetry in Ep. exact (app_cons_neq _ _ _ Ep).
  - rewrite P1, P2 in Ep. apply app_inv_head in Ep. congruence.
Qed.

Lemma found_NoDup env (d : Directory) :
  distinct_names d = true ->
  forall base, NoDup (map key (found env base d)).
Proof.
  induction d as [|files IH] using Directory_tree_ind; intros Hwf base.
  - constructor.
  - apply distinct_names_Listing in Hwf as [Hnd Hsub].
    rewrite found_Listing.
    generalize (Listing files) as here. intros here.
    induction files as [|f rest IHl]; [constructor|].
    cbn [map] in Hnd. inversion Hnd as [|? ? Hnotin Hnd']; subst.
    cbn [flat_map]. rewrite map_app. apply NoDup_app.
    + destruct f as [name st | name sub]; [constructor|].
      cbn [entry_found]. destruct (classify here name).
      * constructor.
      * repeat constructor. intros [].
      * apply (IH name sub); [now left|]. apply (Hsub name). now left.
    + apply IHl; try assumption; intros name sub Hin;
        [apply (IH name) | apply (Hsub name)]; now right.
    + intros k Hk1 Hk2.
      apply in_map_iff in Hk1 as (m1 & E1 & Hm1).
      apply in_map_iff in Hk2 as (m2 & E2 & Hm2).
      apply in_flat_map in Hm2 as (g & Hg & Hm2).
      destruct f as [n1 st1 | n1 sub1]; [contradiction|].
      destruct g as [n2 st2 | n2 sub2]; [contradiction|].
      apply (entry_found_disjoint env base here n1 sub1 n2 sub2 m1 m2);
        [|assumption|assumption|congruence].
      intros En. apply Hnotin. cbn [dirent_name]. rewrite En.
      exact (in_map dirent_name rest (Dir n2 sub2) Hg).
Qed.

Lemma artifactDir_key m1 m2 : artifactDir m1 = artifactDir m2 -> key m1 = key m2.
Proof.
  unfold artifactDir, path_join, key. intros E.
  apply app_inj_tail in E as [Ep Et]. rewrite Ep. f_equal.
  destruct (type m1), (type m2); (reflexivity || discriminate).
Qed.

Lemma NoDup_map_finer {A B C} (f : A -> B) (g : A -> C) (l : list A) :
  (forall x y, g x = g y -> f x = f y) ->
  NoDup (map f l) -> NoDup (map g l).
Proof.
  intros Hfg. induction l as [|a l IH]; cbn [map]; intros H; [constructor|].
  inversion H as [|? ? Hnotin H']; subst. constructor; [|now apply IH].
  intros Hin. apply Hnotin. apply in_map_iff in Hin as (b & E & Hb).
  apply in_map_iff. exists b. split; [now apply Hfg | assumption].
Qed.

(** C1, as the code has it.  In a tree whose listings repeat no name, no
    two matches of a scan agree on both the project path and the project
    type, and no two matches stand for the same artifact directory: each
    artifact directory is recorded at most once. *)
Theorem matches_unique_by_path_and_type :
  forall env base root,
    distinct_names root = true ->
    NoDup (map key (value (scan env base root)))
    /\ NoDup (map artifactDir (value (scan env base root))).
Proof.
  intros env base root Hwf.
  assert (H : NoDup (map key (value (scan env base root))))
    by exact (found_NoDup env root Hwf base).
  split; [exact H|].
  exact (NoDup_map_finer key artifactDir _ artifactDir_key H).
Qed.

Lemma matches_unique_by_path_and_type_witness :
  distinct_names both_tree = true
  /\ NoDup (map key (value (scan no_env ["root"] both_tree)))
  /\ NoDup (map artifactDir (value (scan no_env ["root"] both_tree))).
Proof.
  split.
  - reflexivity.
  - apply (matches_unique_by_path_and_type no_env ["root"] both_tree).
    reflexivity.
Defined.

(** C1 with the project path alone does not hold: a project directory
    that holds both [node_modules] and a [target] next to a [Cargo.toml]
    is the project path of two matches. *)
Lemma project_paths_not_unique :
  distinct_names both_tree = true
  /\ map summary (value (scan no_env ["root"] both_tree))
     = [ (["root"; "proj"], 5, node); (["root"; "proj"], 6, rust) ]
  /\ ~ NoDup (map path (value (scan no_env ["root"] both_tree))).
Proof.
  split; [reflexivity|]. split; [reflexivity|].
  intros H. inversion H as [|? ? Hnotin _]; subst.
  apply Hnotin. left. reflexivity.
Qed.

Lemma as_empty_Listing files :
  as_empty (Listing files) = Listing (map as_empty_entry files).
Proof. reflexivity. Qed.

Lemma as_empty_names files :
  map dirent_name (map as_empty_entry files) = map dirent_name files.
Proof.
  rewrite map_map. apply map_ext. now intros [].
Qed.

Lemma getDirectorySize_as_empty (d : Directory) :
  forall p, value (getDirectorySize p (as_empty d))
            = value (getDirectorySize p d).
Proof.
  induction d as [|files IH] using Directory_tree_ind; intros p.
  - reflexivity.
  - rewrite as_empty_Listing. cbn [getDirectorySize]. run_M.
    generalize 0 as sz.
    induction files as [|f rest IHl]; intros sz; [reflexivity|].
    assert (IHrest : forall name sub, In (Dir name sub) rest ->
              forall p0, value (getDirectorySize p0 (as_empty sub))
                         = value (getDirectorySize p0 sub))
      by (intros; apply (IH name); now right).
    destruct f as [name [st|] | name sub];
      cbn [map as_empty_entry getDirectorySize_loop dirent_name].
    + now apply IHl.
    + reflexivity.
    + run_M. rewrite (IH name sub (or_introl eq_refl)). now apply IHl.
Qed.

Lemma found_as_empty env (d : Directory) :
  forall p, found env p (as_empty d) = found env p d.
Proof.
  induction d as [|files IH] using Directory_tree_ind; intros p.
  - reflexivity.
  - rewrite as_empty_Listing, !found_Listing.
    assert (Hc : forall name, classify (Listing (map as_empty_entry files)) name
                              = classify (Listing files) name).
    { intros name. unfold classify. cbn [hasCargo].
      now rewrite as_empty_names. }
    revert Hc.
    generalize (Listing (map as_empty_entry files)) as here'.
    generalize (Listing files) as here. intros here here' Hc.
    induction files as [|f rest IHl]; [reflexivity|].
    cbn [map flat_map]. rewrite IHl
      by (intros name sub Hin; apply (IH name); now right).
    f_equal.
    destruct f as [name st | name sub]; [reflexivity|].
    cbn [as_empty_entry entry_found]. rewrite Hc.
    destruct (classify here name).
    + reflexivity.
    + now rewrite getDirectorySize_as_empty.
    + apply (IH name). now left.
Qed.

Lemma find_entry_Some name files f :
  find_entry name files = Some f -> In f files /\ dirent_name f = name.
Proof.
  induction files as [|g rest IH]; cbn [find_entry]; [discriminate|].
  destruct (dirent_name g =? name)%string eqn:E.
  - intros [= <-]. split; [now left | now apply String.eqb_eq].
  - intros H. destruct (IH H). split; [now right | assumption].
Qed.

Lemma recursable_classify here name :
  recursable name = true -> classify here name = Recurse.
Proof.
  intros H. unfold classify. rewrite H.
  apply recursable_not_artifact in H as (Hn & Ht & _).
  apply String.eqb_neq in Hn, Ht. now rewrite Hn, Ht.
Qed.

Lemma unlistable_reported env (rel : Path) :
  forall base root,
    resolve root rel = Some Unreadable ->
    forallb recursable rel = true ->
    In (ConsoleError "Error searching in" (base ++ rel)) (calls env base root).
Proof.
  induction rel as [|name rest IH]; intros base root Hres Hrec.
  - cbn [resolve] in Hres. injection Hres as ->.
    rewrite app_nil_r, calls_Unreadable. right. now left.
  - cbn [forallb] in Hrec. apply andb_true_iff in Hrec as [Hn Hrest].
    destruct root as [|files]; [discriminate|].
    cbn [resolve] in Hres.
    destruct (find_entry name files) as [[n st | n sub]|] eqn:Hfe;
      try discriminate.
    apply find_entry_Some in Hfe as [Hin Hname].
    cbn [dirent_name] in Hname. subst n.
    rewrite calls_Listing. right.
    apply in_flat_map. exists (Dir name sub). split; [assumption|].
    cbn [entry_calls]. rewrite (recursable_classify _ _ Hn).
    specialize (IH (path_join base name) sub Hres Hrest).
    unfold path_join in IH. now rewrite <- app_assoc in IH.
Qed.

(** C6. A directory that cannot be listed never aborts the walk.
    [getDirectorySize] of such a directory reports the error and returns
    the sum it has, 0; in the size of a tree, unlistable directories count
    as empty ones.  [findBuildDirectories] on such a directory reports the
    error and returns the array as it is; a scan returns the matches it was
    given followed by what it finds, which is what it finds when the
    unlistable directories of the tree are empty, so the siblings of an
    unlistable directory are still scanned; and the error is reported for
    every unlistable directory that lies on a way the scan takes. *)
Theorem listing_errors_recovered :
  forall env p,
    getDirectorySize p Unreadable
    = (0, [Enter Size p; ConsoleError "Error reading directory" p])
    /\ (forall d, value (getDirectorySize p (as_empty d))
                  = value (getDirectorySize p d))
    /\ (forall rs, findBuildDirectories env p Unreadable rs
                   = (rs, [Enter Search p; ConsoleError "Error searching in" p]))
    /\ (forall d rs, value (findBuildDirectories env p d rs)
                     = rs ++ value (findBuildDirectories env p d []))
    /\ (forall d rs, value (findBuildDirectories env p (as_empty d) rs)
                     = value (findBuildDirectories env p d rs))
    /\ (forall d rel,
          resolve d rel = Some Unreadable ->
          forallb recursable rel = true ->
          In (ConsoleError "Error searching in" (p ++ rel))
             (trace (scan env p d))).
Proof.
  intros env p.
  split; [reflexivity|].
  split; [intros d; apply getDirectorySize_as_empty|].
  split; [reflexivity|].
  split; [intros d rs; now rewrite findBuildDirectories_spec|].
  split.
  - intros d rs. rewrite !findBuildDirectories_spec. cbn [value fst].
    now rewrite found_as_empty.
  - intros d rel Hres Hrec. now apply unlistable_reported.
Qed.

Lemma listing_errors_recovered_witness :
  resolve plain_tree ["docs"] = Some Unreadable
  /\ forallb recursable ["docs"] = true
  /\ In (ConsoleError "Error searching in" (["root"] ++ ["docs"]))
        (trace (scan no_env ["root"] plain_tree)).
Proof.
  split; [reflexivity|]. split; [reflexivity|].
  apply (proj2 (proj2 (proj2 (proj2 (proj2
           (listing_errors_recovered no_env ["root"])))))
           plain_tree ["docs"]); reflexivity.
Defined.

Lemma getDirectorySize_same_text :
  NodeOnly.getDirectorySize = getDirectorySize.
Proof. reflexivity. Qed.

Section Versions.
Variable env : Env.

Lemma loops_agree p here files :
  forallb (fun f => match f with
                    | File _ _ => true
                    | Dir name sub =>
                        negb (name =? "target")%string && no_target sub
                    end) files = true ->
  (forall name sub, In (Dir name sub) files ->
     no_target sub = true ->
     forall q rs1 rs,
       map path_and_size_v1 rs1 = map path_and_size rs ->
       agree (NodeOnly.findNodeModules q sub rs1)
             (findBuildDirectories env q sub rs)) ->
  forall rs1 rs,
    map path_and_size_v1 rs1 = map path_and_size rs ->
    agree (NodeOnly.findNodeModules_loop NodeOnly.findNodeModules p files rs1)
          (findBuildDirectories_loop env (findBuildDirectories env) p here
             files rs).
Proof.
  unfold agree.
  induction files as [|f rest IHl]; intros Hnt IH rs1 rs Hrs.
  - split; [reflexivity | exact Hrs].
  - cbn [forallb] in Hnt. apply andb_true_iff in Hnt as [Hf Hrest].
    assert (IHrest : forall name sub, In (Dir name sub) rest ->
              no_target sub = true ->
              forall q rs1 rs,
                map path_and_size_v1 rs1 = map path_and_size rs ->
                trace (NodeOnly.findNodeModules q sub rs1)
                = trace (findBuildDirectories env q sub rs)
                /\ map path_and_size_v1
                     (value (NodeOnly.findNodeModules q sub rs1))
                   = map path_and_size
                       (value (findBuildDirectories env q sub rs)))
      by (intros name sub Hin; apply (IH name); now right).
    destruct f as [name st | name sub].
    + cbn [NodeOnly.findNodeModules_loop findBuildDirectories_loop].
      now apply IHl.
    + apply andb_true_iff in Hf as [Htg Hsub].
      apply negb_true_iff in Htg.
      cbn [NodeOnly.findNodeModules_loop findBuildDirectories_loop
             dirent_name].
      rewrite Htg, getDirectorySize_same_text.
      destruct (name =? "node_modules")%string eqn:Enm.
      * run_M.
        destruct (IHl Hrest IHrest
                    (rs1 ++ [ {| NodeOnly.path := p;
                                 NodeOnly.size :=
                                   value (getDirectorySize (path_join p name) sub) |} ])
                    (rs ++ [ pushed env p
                               (value (getDirectorySize (path_join p name) sub))
                               node ]))
          as [Ht Hv].
        { rewrite !map_app, Hrs. reflexivity. }
        split; [now rewrite Ht | exact Hv].
      * cbn [andb negb]. run_M. rewrite andb_true_r.
        destruct (negb (startsWith name ".")) eqn:Hh; cbn [andb].
        -- run_M.
           destruct (IH name sub (or_introl eq_refl) Hsub
                       (path_join p name) rs1 rs Hrs) as [Ht Hv].
           destruct (IHl Hrest IHrest _ _ Hv) as [Ht' Hv'].
           split; [now rewrite Ht, Ht' | exact Hv'].
        -- now apply IHl.
Qed.

Lemma versions_agree (d : Directory) :
  no_target d = true ->
  forall p rs1 rs,
    map path_and_size_v1 rs1 = map path_and_size rs ->
    agree (NodeOnly.findNodeModules p d rs1) (findBuildDirectories env p d rs).
Proof.
  unfold agree.
  induction d as [|files IH] using Directory_tree_ind;
    intros Hnt p rs1 rs Hrs.
  - split; [reflexivity | exact Hrs].
  - cbn [NodeOnly.findNodeModules findBuildDirectories]. run_M.
    destruct (loops_agree p (Listing files) files Hnt IH rs1 rs Hrs)
      as [Ht Hv].
    split; [now rewrite Ht | exact Hv].
Qed.
End Versions.

(** C9. On a tree that holds no directory named [target], the earlier
    [findNodeModules] and the later [findBuildDirectories] make the same
    calls on the same directories in the same order, report the same
    errors, and return the same sequence of matches as far as path and
    size go. *)
Theorem earlier_and_later_scan_agree :
  forall env base root,
    no_target root = true ->
    trace (NodeOnly.scan base root) = trace (scan env base root)
    /\ map path_and_size_v1 (value (NodeOnly.scan base root))
       = map path_and_size (value (scan env base root)).
Proof.
  intros env base root Hnt.
  exact (versions_agree env root Hnt base [] [] eq_refl).
Qed.

Lemma earlier_and_later_scan_agree_witness :
  no_target node_tree = true
  /\ trace (NodeOnly.scan ["root"] node_tree)
     = trace (scan no_env ["root"] node_tree)
  /\ map path_and_size_v1 (value (NodeOnly.scan ["root"] node_tree))
     = map path_and_size (value (scan no_env ["root"] node_tree)).
Proof.
  split.
  - reflexivity.
  - apply (earlier_and_later_scan_agree no_env ["root"] node_tree).
    reflexivity.
Defined.

Lemma path_join_app base p name :
  path_join (base ++ p) name = base ++ path_join p name.
Proof. unfold path_join. now rewrite <- app_assoc. Qed.

Lemma getDirectorySize_shift (d : Directory) :
  forall base p,
    getDirectorySize (base ++ p) d
    = (value (getDirectorySize p d),
       map (shift_event base) (trace (getDirectorySize p d))).
Proof.
  induction d as [|files IH] using Directory_tree_ind; intros base p.
  - reflexivity.
  - cbn [getDirectorySize].
    assert (Hloop : forall sz,
               getDirectorySize_loop getDirectorySize (base ++ p) files sz
               = (value (getDirectorySize_loop getDirectorySize p files sz),
                  map (shift_event base)
                    (trace (getDirectorySize_loop getDirectorySize p files sz)))).
    { induction files as [|f rest IHl]; intros sz; [reflexivity|].
      assert (IHrest : forall name sub, In (Dir name sub) rest ->
                forall base0 p0,
                  getDirectorySize (base0 ++ p0) sub
                  = (value (getDirectorySize p0 sub),
                     map (shift_event base0) (trace (getDirectorySize p0 sub))))
        by (intros; apply (IH name); now right).
      destruct f as [name [st|] | name sub]; cbn [getDirectorySize_loop].
      - now apply IHl.
      - reflexivity.
      - cbn [dirent_name]. rewrite path_join_app.
        rewrite (IH name sub (or_introl eq_refl) base (path_join p name)).
        apply M_ext; run_M; rewrite (IHl IHrest); cbn [value trace fst snd].
        + reflexivity.
        + now rewrite map_app. }
    apply M_ext; run_M; rewrite Hloop; reflexivity.
Qed.

Lemma found_shift env (d : Directory) :
  forall base p,
    map summary (found env (base ++ p) d)
    = map (shift_summary base) (map summary (found env p d)).
Proof.
  induction d as [|files IH] using Directory_tree_ind; intros base p.
  - reflexivity.
  - rewrite !found_Listing.
    generalize (Listing files) as here. intros here.
    induction files as [|f rest IHl]; [reflexivity|].
    cbn [flat_map]. rewrite !map_app.
    rewrite IHl by (intros name sub Hin; apply (IH name); now right).
    f_equal.
    destruct f as [name st | name sub]; [reflexivity|].
    cbn [entry_found]. rewrite path_join_app.
    destruct (classify here name).
    + reflexivity.
    + rewrite getDirectorySize_shift. reflexivity.
    + apply (IH name). now left.
Qed.

Lemma calls_shift env (d : Directory) :
  forall base p,
    calls env (base ++ p) d = map (shift_event base) (calls env p d).
Proof.
  induction d as [|files IH] using Directory_tree_ind; intros base p.
  - reflexivity.
  - rewrite !calls_Listing. cbn [map shift_event]. f_equal.
    generalize (Listing files) as here. intros here.
    induction files as [|f rest IHl]; [reflexivity|].
    cbn [flat_map]. rewrite !map_app.
    rewrite IHl by (intros name sub Hin; apply (IH name); now right).
    f_equal.
    destruct f as [name st | name sub]; [reflexivity|].
    cbn [entry_calls]. rewrite path_join_app.
    destruct (classify here name) as [|[|]|].
    + now destruct (name =? "target")%string.
    + now rewrite getDirectorySize_shift.
    + now rewrite getDirectorySize_shift.
    + apply (IH name). now left.
Qed.

Lemma calls_head env p d : exists t, calls env p d = Enter Search p :: t.
Proof.
  destruct d as [|files].
  - rewrite calls_Unreadable. now eexists.
  - rewrite calls_Listing. now eexists.
Qed.

(** C10. The start path is never tested against the artifact names: a
    scan started at [parent/name], whatever [name] is ([node_modules] and
    [target] included), returns only matches whose project path is
    [parent/name] or lies below it, so none stands for the start directory
    itself and none names [parent], the project path such a match would
    have; its matches and its calls are those of the scan of the same
    contents from the empty path, with [parent/name] put in front of every
    path; and the contents of the start directory are walked by the
    ordinary rules: the start directory is entered, each [node_modules]
    directory it lists and each [target] it lists next to an entry named
    [Cargo.toml] is reported as a match of [parent/name] with its size,
    and each directory it lists under a name the scan walks through is
    entered and all that the scan of it finds is in the result. *)
Theorem start_path_never_tested :
  forall env parent name root,
    Forall (fun m => exists s, path m = path_join parent name ++ s)
      (value (scan env (path_join parent name) root))
    /\ Forall (fun m => artifactDir m <> path_join parent name)
         (value (scan env (path_join parent name) root))
    /\ ~ In parent (map path (value (scan env (path_join parent name) root)))
    /\ map summary (value (scan env (path_join parent name) root))
       = map (shift_summary (path_join parent name))
           (map summary (value (scan env [] root)))
    /\ trace (scan env (path_join parent name) root)
       = map (shift_event (path_join parent name)) (trace (scan env [] root))
    /\ In (Enter Search (path_join parent name))
          (trace (scan env (path_join parent name) root))
    /\ (forall files n sub,
          root = Listing files ->
          In (Dir n sub) files ->
          (n = "node_modules"%string ->
           In (pushed env (path_join parent name)
                 (value (getDirectorySize
                           (path_join (path_join parent name) "node_modules")
                           sub))
                 node)
              (value (scan env (path_join parent name) root)))
          /\ (n = "target"%string ->
              includes (map dirent_name files) "Cargo.toml" = true ->
              In (pushed env (path_join parent name)
                    (value (getDirectorySize
                              (path_join (path_join parent name) "target")
                              sub))
                    rust)
                 (value (scan env (path_join parent name) root)))
          /\ (recursable n = true ->
              In (Enter Search (path_join (path_join parent name) n))
                 (trace (scan env (path_join parent name) root))
              /\ forall m,
                   In m (value (scan env (path_join (path_join parent name) n)
                                  sub)) ->
                   In m (value (scan env (path_join parent name) root)))).
Proof.
  intros env parent name root.
  assert (Hpre : forall m, In m (value (scan env (path_join parent name) root)) ->
                           exists s, path m = path_join parent name ++ s).
  { intros m Hm.
    destruct (found_walked env root _ m Hm) as (s & E & _). now exists s. }
  split; [now apply Forall_forall|].
  split.
  { apply Forall_forall. intros m Hm E.
    destruct (Hpre m Hm) as (s & Hs).
    destruct (artifactDir_name m) as (a & Ea & _).
    rewrite Ea, Hs in E.
    apply (f_equal (@List.length string)) in E.
    rewrite !length_app in E. cbn [List.length] in E. lia. }
  split.
  { intros Hin. apply in_map_iff in Hin as (m & E & Hm).
    destruct (Hpre m Hm) as (s & Hs). rewrite E in Hs.
    unfold path_join in Hs. rewrite <- app_assoc in Hs.
    exact (app_cons_neq _ _ _ Hs). }
  split.
  { pose proof (found_shift env root (path_join parent name) []) as H.
    rewrite app_nil_r in H. exact H. }
  split.
  { pose proof (calls_shift env root (path_join parent name) []) as H.
    rewrite app_nil_r in H. exact H. }
  set (base := path_join parent name).
  change (In (Enter Search base) (calls env base root)
          /\ (forall files n sub,
                root = Listing files ->
                In (Dir n sub) files ->
                (n = "node_modules"%string ->
                 In (pushed env base
                       (value (getDirectorySize
                                 (path_join base "node_modules") sub)) node)
                    (found env base root))
                /\ (n = "target"%string ->
                    includes (map dirent_name files) "Cargo.toml" = true ->
                    In (pushed env base
                          (value (getDirectorySize
                                    (path_join base "target") sub)) rust)
                       (found env base root))
                /\ (recursable n = true ->
                    In (Enter Search (path_join base n)) (calls env base root)
                    /\ forall m, In m (found env (path_join base n) sub) ->
                                 In m (found env base root)))).
  split.
  { destruct (calls_head env base root) as (t & ->). now left. }
  intros files n sub -> Hin.
  rewrite found_Listing, calls_Listing.
  split; [|split].
  - intros ->. apply in_flat_map. exists (Dir "node_modules" sub).
    split; [assumption|]. left. reflexivity.
  - intros -> Hc. apply in_flat_map. exists (Dir "target" sub).
    split; [assumption|]. cbn [entry_found].
    unfold classify. cbn [hasCargo]. rewrite Hc. left. reflexivity.
  - intros Hrec. split.
    + right. apply in_flat_map. exists (Dir n sub). split; [assumption|].
      cbn [entry_calls]. rewrite (recursable_classify _ _ Hrec).
      destruct (calls_head env (path_join base n) sub) as (t & ->). now left.
    + intros m Hm. apply in_flat_map. exists (Dir n sub).
      split; [assumption|].
      cbn [entry_found]. now rewrite (recursable_classify _ _ Hrec).
Qed.

Lemma start_path_never_tested_witness :
  In (Enter Search (path_join ["root"] "node_modules"))
     (trace (scan no_env (path_join ["root"] "node_modules") inside_tree))
  /\ In (pushed no_env (path_join ["root"] "node_modules")
           (value (getDirectorySize
                     (path_join (path_join ["root"] "node_modules")
                        "node_modules")
                     (Listing [ File "x" (Some 5) ])))
           node)
        (value (scan no_env (path_join ["root"] "node_modules") inside_tree))
  /\ In (Enter Search (path_join (path_join ["root"] "node_modules") "pkg"))
        (trace (scan no_env (path_join ["root"] "node_modules") inside_tree)).
Proof.
  pose proof (start_path_never_tested no_env ["root"] "node_modules"
                inside_tree) as (_ & _ & _ & _ & _ & Hentered & Hcontents).
  split; [exact Hentered|]. split.
  - apply (proj1 (Hcontents _ "node_modules" (Listing [ File "x" (Some 5) ])
                    eq_refl (or_intror (or_introl eq_refl)))).
    reflexivity.
  - apply (proj2 (proj2 (Hcontents _ "pkg"
                           (Listing [ Dir "node_modules"
                                        (Listing [ File "i.js" (Some 3) ]) ])
                           eq_refl (or_introl eq_refl)))).
    reflexivity.
Defined.

(** A scan started in a directory that is itself called [node_modules]:
    the start directory is not matched, its contents are. *)
Example scan_inside_node_modules :
  map summary
    (value (scan no_env ["root"; "node_modules"]
              (Listing [ Dir "pkg"
                           (Listing [ Dir "node_modules"
                                        (Listing [ File "i.js" (Some 3) ]) ]) ])))
  = [ (["root"; "node_modules"; "pkg"], 3, node) ].
Proof. reflexivity. Qed.

(** * Further properties of the scan *)

(** ** Every artifact directory on the way is reported *)

Lemma found_complete env (rel : Path) :
  forall base root files name sub t,
    forallb recursable rel = true ->
    resolve root rel = Some (Listing files) ->
    In (Dir name sub) files ->
    classify (Listing files) name = Match t ->
    In (pushed env (base ++ rel)
          (value (getDirectorySize (path_join (base ++ rel) name) sub)) t)
       (found env base root).
Proof.
  induction rel as [|n rest IH]; intros base root files name sub t Hrec Hres Hin Hc.
  - cbn [resolve] in Hres. injection Hres as ->.
    rewrite app_nil_r, found_Listing. apply in_flat_map.
    exists (Dir name sub). split; [assumption|].
    cbn [entry_found]. rewrite Hc. now left.
  - cbn [forallb] in Hrec. apply andb_true_iff in Hrec as [Hn Hrest].
    destruct root as [|rfiles]; [discriminate|].
    cbn [resolve] in Hres.
    destruct (find_entry n rfiles) as [[n' st | n' sub']|] eqn:Hfe;
      try discriminate.
    apply find_entry_Some in Hfe as [Hin' Hname].
    cbn [dirent_name] in Hname. subst n'.
    rewrite found_Listing. apply in_flat_map.
    exists (Dir n sub'). split; [assumption|].
    cbn [entry_found]. rewrite (recursable_classify _ _ Hn).
    specialize (IH (path_join base n) sub' files name sub t Hrest Hres Hin Hc).
    replace (path_join base n ++ rest) with (base ++ n :: rest) in IH
      by (unfold path_join; now rewrite <- app_assoc).
    exact IH.
Qed.

(** X1. The scan misses no artifact directory it can reach: when every
    component of [rel] is a name the scan walks through (not hidden, not
    [node_modules], not [target]) and [rel] leads to a listed directory,
    each [node_modules] directory in that listing is reported as a [node]
    match of [base/rel], and each [target] directory next to an entry
    named [Cargo.toml] as a [rust] match, with the size that
    [getDirectorySize] computes for it. *)
Theorem reachable_artifacts_are_reported :
  forall env base root rel files name sub,
    forallb recursable rel = true ->
    resolve root rel = Some (Listing files) ->
    In (Dir name sub) files ->
    (name = "node_modules"%string ->
     In (pushed env (base ++ rel)
           (value (getDirectorySize (base ++ rel ++ ["node_modules"%string]) sub))
           node)
        (value (scan env base root)))
    /\ (name = "target"%string ->
        includes (map dirent_name files) "Cargo.toml" = true ->
        In (pushed env (base ++ rel)
              (value (getDirectorySize (base ++ rel ++ ["target"%string]) sub))
              rust)
           (value (scan env base root))).
Proof.
  intros env base root rel files name sub Hrec Hres Hin.
  split.
  - intros ->.
    pose proof (found_complete env rel base root files _ sub node
                  Hrec Hres Hin eq_refl) as H.
    unfold path_join in H. now rewrite <- app_assoc in H.
  - intros -> Hc.
    assert (Hcl : classify (Listing files) "target" = Match rust).
    { unfold classify. cbn [hasCargo]. now rewrite Hc. }
    pose proof (found_complete env rel base root files _ sub rust
                  Hrec Hres Hin Hcl) as H.
    unfold path_join in H. now rewrite <- app_assoc in H.
Qed.

Lemma reachable_artifacts_are_reported_witness :
  In (pushed no_env (["root"] ++ ["app"; "src"])
        (value (getDirectorySize
                  (["root"] ++ ["app"; "src"] ++ ["node_modules"%string])
                  (Listing [ File "b" (Some 2) ])))
        node)
     (value (scan no_env ["root"] node_tree)).
Proof.
  apply (proj1 (reachable_artifacts_are_reported no_env ["root"] node_tree
                  ["app"; "src"]
                  [ Dir "node_modules" (Listing [ File "b" (Some 2) ]) ]
                  "node_modules" (Listing [ File "b" (Some 2) ])
                  eq_refl eq_refl (or_introl eq_refl))).
  reflexivity.
Defined.

(** ** Every match is an artifact directory of the tree *)

Lemma found_nice_path env (d : Directory) :
  forall base m, In m (found env base d) ->
    nice_path m = replace (getHomeDirectory env) "~" (path_to_string (path m)).
Proof.
  induction d as [|files IH] using Directory_tree_ind; intros base m Hm.
  - contradiction.
  - rewrite found_Listing in Hm.
    apply in_flat_map in Hm as (f & Hf & Hm).
    destruct f as [name st | name sub]; [contradiction|].
    cbn [entry_found] in Hm.
    destruct (classify (Listing files) name).
    + contradiction.
    + destruct Hm as [<-|[]]. reflexivity.
    + now apply (IH name sub Hf (path_join base name)).
Qed.

(** X2. The scan reports nothing but artifact directories of the tree: in
    a tree whose listings repeat no name, every match [m] has a project
    path [base/rel] that leads, through names the scan walks through, to a
    listed directory holding a directory [name], where [name] is
    [node_modules] for a [node] match and [target], next to an entry named
    [Cargo.toml], for a [rust] match; that directory is the artifact
    directory of [m] and the size of [m] is what [getDirectorySize]
    computes for it. *)
Theorem matches_are_artifact_directories :
  forall env base root m,
    distinct_names root = true ->
    In m (value (scan env base root)) ->
    exists rel files name sub,
      path m = base ++ rel
      /\ forallb recursable rel = true
      /\ resolve root rel = Some (Listing files)
      /\ In (Dir name sub) files
      /\ artifactDir m = path_join (base ++ rel) name
      /\ size m = value (getDirectorySize (artifactDir m) sub)
      /\ match type m with
         | node => name = "node_modules"%string
         | rust => name = "target"%string
                   /\ includes (map dirent_name files) "Cargo.toml" = true
         end.
Proof.
  intros env base root m Hwf Hm.
  destruct (found_sound env root Hwf base m Hm)
    as (rel & files & name & sub & Hp & Hr & Hin & Hcl & Hsz).
  destruct (found_walked env root base m Hm) as (s & Hs & Hrec).
  rewrite Hp in Hs. apply app_inv_head in Hs. subst s.
  assert (Hname : name = match type m with
                         | node => "node_modules"%string
                         | rust => "target"%string
                         end).
  { destruct (type m).
    - now apply classify_Match_node in Hcl.
    - now apply classify_Match_rust in Hcl as [Hcl _]. }
  exists rel, files, name, sub.
  split; [assumption|]. split; [now apply forallb_forall, Forall_forall|].
  split; [assumption|]. split; [assumption|].
  assert (Ha : artifactDir m = path_join (base ++ rel) name).
  { unfold artifactDir. now rewrite Hp, Hname. }
  split; [assumption|]. split.
  - rewrite Ha, <- Hp. exact Hsz.
  - destruct (type m).
    + assumption.
    + split; [assumption|].
      now apply classify_Match_rust in Hcl as [_ Hcl].
Qed.

Lemma matches_are_artifact_directories_witness :
  exists rel files name sub,
    path (pushed no_env ["root"; "app"] 13 node) = ["root"] ++ rel
    /\ forallb recursable rel = true
    /\ resolve nested_tree rel = Some (Listing files)
    /\ In (Dir name sub) files
    /\ artifactDir (pushed no_env ["root"; "app"] 13 node)
       = path_join (["root"] ++ rel) name
    /\ size (pushed no_env ["root"; "app"] 13 node)
       = value (getDirectorySize
                  (artifactDir (pushed no_env ["root"; "app"] 13 node)) sub)
    /\ match type (pushed no_env ["root"; "app"] 13 node) with
       | node => name = "node_modules"%string
       | rust => name = "target"%string
                 /\ includes (map dirent_name files) "Cargo.toml" = true
       end.
Proof.
  apply (matches_are_artifact_directories no_env ["root"] nested_tree
           (pushed no_env ["root"; "app"] 13 node)).
  - reflexivity.
  - left. reflexivity.
Defined.

(** ** Sizes are never negative *)

Lemma getDirectorySize_nonneg (d : Directory) :
  sizes_nonneg d = true -> forall p, 0 <= value (getDirectorySize p d).
Proof.
  induction d as [|files IH] using Directory_tree_ind; intros Hnn p.
  - cbn. lia.
  - cbn [getDirectorySize]. run_M.
    cbn [sizes_nonneg] in Hnn.
    assert (Hloop : forall sz, 0 <= sz ->
              0 <= value (getDirectorySize_loop getDirectorySize p files sz)).
    { induction files as [|f rest IHl]; intros sz Hsz; [exact Hsz|].
      cbn [forallb] in Hnn. apply andb_true_iff in Hnn as [Hf Hrest].
      assert (IHrest : forall name sub, In (Dir name sub) rest ->
                sizes_nonneg sub = true ->
                forall p0, 0 <= value (getDirectorySize p0 sub))
        by (intros name sub Hin; apply (IH name); now right).
      destruct f as [name [st|] | name sub]; cbn [getDirectorySize_loop].
      - apply (IHl IHrest Hrest). apply Z.leb_le in Hf. lia.
      - exact Hsz.
      - run_M. apply (IHl IHrest Hrest). cbn [dirent_name].
        pose proof (IH name sub (or_introl eq_refl) Hf
                      (path_join p name)). lia. }
    apply Hloop. lia.
Qed.

(** X3. When no size reported by [fs.stat] in the tree is negative,
    [getDirectorySize] never returns a negative number and no match of a
    scan has a negative size, whatever cannot be listed or read on the
    way. *)
Theorem sizes_are_never_negative :
  forall env base root,
    sizes_nonneg root = true ->
    0 <= value (getDirectorySize base root)
    /\ Forall (fun m => 0 <= size m) (value (scan env base root)).
Proof.
  intros env base root Hnn. split; [now apply getDirectorySize_nonneg|].
  revert base Hnn.
  change (forall base, sizes_nonneg root = true ->
                       Forall (fun m => 0 <= size m) (found env base root)).
  induction root as [|files IH] using Directory_tree_ind; intros base Hnn.
  - constructor.
  - rewrite found_Listing. apply Forall_flat_map, Forall_forall.
    intros f Hf. cbn [sizes_nonneg] in Hnn. rewrite forallb_forall in Hnn.
    specialize (Hnn f Hf).
    destruct f as [name st | name sub]; [constructor|].
    cbn [entry_found]. destruct (classify (Listing files) name).
    + constructor.
    + constructor; [|constructor]. cbn [pushed size].
      now apply getDirectorySize_nonneg.
    + now apply (IH name sub Hf).
Qed.

Lemma sizes_are_never_negative_witness :
  sizes_nonneg node_tree = true
  /\ 0 <= value (getDirectorySize ["root"] node_tree)
  /\ Forall (fun m => 0 <= size m) (value (scan no_env ["root"] node_tree)).
Proof.
  split.
  - reflexivity.
  - apply (sizes_are_never_negative no_env ["root"] node_tree). reflexivity.
Defined.

(** ** An entry that [fs.stat] fails on ends the count of its directory *)

Lemma getDirectorySize_loop_stat_throws p pre name post :
  forall sz,
    value (getDirectorySize_loop getDirectorySize p
             (pre ++ File name None :: post) sz)
    = value (getDirectorySize_loop getDirectorySize p pre sz)
    /\ (forallb stat_ok pre = true ->
        trace (getDirectorySize_loop getDirectorySize p
                 (pre ++ File name None :: post) sz)
        = trace (getDirectorySize_loop getDirectorySize p pre sz)
          ++ [ConsoleError "Error reading directory" p]).
Proof.
  induction pre as [|f rest IH]; intros sz.
  - split; reflexivity.
  - destruct f as [n [st|] | n sub];
      cbn [app getDirectorySize_loop forallb stat_ok andb].
    + apply IH.
    + split; [reflexivity | discriminate].
    + run_M. destruct (IH (sz + value (getDirectorySize
                                         (path_join p (dirent_name (Dir n sub))) sub)))
        as [Hv Ht].
      split; [exact Hv|]. intros Hok. rewrite (Ht Hok).
      now rewrite app_assoc.
Qed.

(** X4. In [getDirectorySize] a throwing [fs.stat] ends the loop over the
    listing: the entries listed after the first entry that [fs.stat] fails
    on are not counted, whatever they are, so the size returned is that of
    the entries listed before it; when [fs.stat] answers for all of these,
    the trace is theirs followed by one error line for the directory. *)
Theorem stat_failure_truncates_the_sum :
  forall p pre name post,
    value (getDirectorySize p (Listing (pre ++ File name None :: post)))
    = value (getDirectorySize p (Listing pre))
    /\ (forallb stat_ok pre = true ->
        trace (getDirectorySize p (Listing (pre ++ File name None :: post)))
        = trace (getDirectorySize p (Listing pre))
          ++ [ConsoleError "Error reading directory" p]).
Proof.
  intros p pre name post.
  destruct (getDirectorySize_loop_stat_throws p pre name post 0) as [Hv Ht].
  cbn [getDirectorySize]. run_M. split; [exact Hv|].
  intros Hok. now rewrite (Ht Hok).
Qed.

Lemma stat_failure_truncates_the_sum_witness :
  forallb stat_ok [ File "a" (Some 4) ] = true
  /\ value (getDirectorySize ["big"] dangling_tree) = 4
  /\ trace (getDirectorySize ["big"] dangling_tree)
     = trace (getDirectorySize ["big"] (Listing [ File "a" (Some 4) ]))
       ++ [ConsoleError "Error reading directory" ["big"]].
Proof.
  split; [reflexivity|].
  pose proof (stat_failure_truncates_the_sum ["big"] [ File "a" (Some 4) ]
                "gone"
                [ File "b" (Some 6); Dir "sub" (Listing [ File "c" (Some 8) ]) ])
    as [Hv Ht].
  split.
  - exact Hv.
  - exact (Ht eq_refl).
Defined.

(** * The displayed path *)

Lemma prefix_append (h rest : string) : prefix h (h ++ rest) = true.
Proof.
  induction h as [|a h IH]; [now destruct rest|].
  cbn. destruct (Ascii.ascii_dec a a); [exact IH | contradiction].
Qed.

Lemma index_prefix (h rest : string) : index 0 h (h ++ rest) = Some 0%nat.
Proof.
  destruct (h ++ rest)%string as [|b s] eqn:E.
  - destruct h; [reflexivity | discriminate].
  - cbn [index]. rewrite <- E. now rewrite prefix_append.
Qed.

Lemma substring_all (s : string) : substring 0 (String.length s) s = s.
Proof. induction s as [|a s IH]; [reflexivity|]. cbn. now rewrite IH. Qed.

Lemma substring_after (h rest : string) :
  substring (String.length h)
    (String.length (h ++ rest) - String.length h) (h ++ rest) = rest.
Proof.
  induction h as [|a h IH].
  - cbn [String.append String.length]. rewrite Nat.sub_0_r.
    apply substring_all.
  - cbn [String.append String.length]. rewrite Nat.sub_succ.
    destruct (String.length (h ++ rest) - String.length h)%nat; exact IH.
Qed.

Lemma replace_prefix (h r rest : string) :
  replace h r (h ++ rest) = (r ++ rest)%string.
Proof.
  unfold replace. rewrite index_prefix. cbn [Nat.add].
  rewrite substring_after.
  now destruct (h ++ rest)%string.
Qed.

(** X5. The displayed path of a match abbreviates the home directory: when
    the project path, written out, begins with the home directory that
    [getHomeDirectory] returns, [nice_path] is [~] followed by the rest of
    the path. *)
Theorem nice_path_abbreviates_home :
  forall env base root m rest,
    In m (value (scan env base root)) ->
    path_to_string (path m) = (getHomeDirectory env ++ rest)%string ->
    nice_path m = ("~" ++ rest)%string.
Proof.
  intros env base root m rest Hm E.
  rewrite (found_nice_path env root base m Hm), E.
  apply replace_prefix.
Qed.

Lemma nice_path_abbreviates_home_witness :
  nice_path (pushed home_env ["home"; "u"; "work"; "web"] 50 node)
  = ("~" ++ "/work/web")%string.
Proof.
  apply (nice_path_abbreviates_home home_env ["home"; "u"]
           (fs_readdir home_tree ["home"; "u"])
           (pushed home_env ["home"; "u"; "work"; "web"] 50 node)
           "/work/web").
  - right. right. left. reflexivity.
  - reflexivity.
Defined.

(** X6. When neither [HOME] nor [USERPROFILE] is set to a non-empty
    string, [getHomeDirectory] returns the empty string, which
    [String.prototype.replace] finds at index 0: the displayed path of
    every match is then [~] followed by the whole project path. *)
Theorem nice_path_without_home :
  forall env base root m,
    (HOME env = None \/ HOME env = Some ""%string) ->
    (USERPROFILE env = None \/ USERPROFILE env = Some ""%string) ->
    In m (value (scan env base root)) ->
    nice_path m = ("~" ++ path_to_string (path m))%string.
Proof.
  intros env base root m Hh Hu Hm.
  assert (E : getHomeDirectory env = ""%string).
  { unfold getHomeDirectory, js_or.
    destruct Hh as [-> | ->], Hu as [-> | ->]; reflexivity. }
  rewrite (found_nice_path env root base m Hm), E.
  exact (replace_prefix "" "~" (path_to_string (path m))).
Qed.

Lemma nice_path_without_home_witness :
  nice_path (pushed no_env ["home"; "u"; "work"; "web"] 50 node)
  = ("~" ++ path_to_string ["home"; "u"; "work"; "web"])%string.
Proof.
  apply (nice_path_without_home no_env ["home"; "u"]
           (fs_readdir home_tree ["home"; "u"])
           (pushed no_env ["home"; "u"; "work"; "web"] 50 node)).
  - left. reflexivity.
  - left. reflexivity.
  - right. right. left. reflexivity.
Defined.

(** * Deleting an artifact directory *)

Lemma Path_eqb_eq p q : Path_eqb p q = true <-> p = q.
Proof.
  unfold Path_eqb. destruct (list_eq_dec string_dec p q) as [e|ne];
    split; intros H;
    try reflexivity; try assumption; try discriminate.
  exfalso. exact (ne H).
Qed.

Lemma without_app g l1 l2 : without g (l1 ++ l2) = without g l1 ++ without g l2.
Proof. apply filter_app. Qed.

Lemma without_elsewhere g l :
  (forall m, In m l -> artifactDir m <> g) -> without g l = l.
Proof.
  induction l as [|m l IH]; intros H; [reflexivity|].
  cbn [without filter].
  destruct (Path_eqb (artifactDir m) g) eqn:E.
  - apply Path_eqb_eq in E. exfalso. exact (H m (or_introl eq_refl) E).
  - cbn [negb]. f_equal. apply IH. intros m' Hm'. apply H. now right.
Qed.

Lemma without_there g l :
  (forall m, In m l -> artifactDir m = g) -> without g l = [].
Proof.
  induction l as [|m l IH]; intros H; [reflexivity|].
  cbn [without filter].
  rewrite (proj2 (Path_eqb_eq _ _) (H m (or_introl eq_refl))).
  cbn [negb]. apply IH. intros m' Hm'. apply H. now right.
Qed.

Lemma entry_found_artifactDir env base here name sub m :
  In m (entry_found env base here (Dir name sub)) ->
  exists s, artifactDir m = base ++ name :: s.
Proof.
  intros Hm. destruct (entry_found_key env base here name sub m Hm)
    as [[Hp Hc] | (s & Hp)].
  - exists []. unfold artifactDir, path_join. rewrite Hp. f_equal. f_equal.
    destruct (type m).
    + apply classify_Match_node in Hc. now subst.
    + apply classify_Match_rust in Hc as [Hc _]. now subst.
  - exists (s ++ [match type m with node => "node_modules"%string
                                | rust => "target"%string end]).
    unfold artifactDir, path_join. rewrite Hp. now rewrite <- app_assoc.
Qed.

Lemma classify_hasCargo h1 h2 name :
  hasCargo h1 = hasCargo h2 -> classify h1 name = classify h2 name.
Proof. unfold classify. now intros ->. Qed.

Lemma entry_found_here env base h1 h2 f :
  hasCargo h1 = hasCargo h2 ->
  entry_found env base h1 f = entry_found env base h2 f.
Proof.
  intros H. destruct f as [name st | name sub]; [reflexivity|].
  cbn [entry_found]. now rewrite (classify_hasCargo h1 h2 name H).
Qed.

Lemma includes_filter_other a x files :
  a <> x ->
  includes (map dirent_name
              (filter (fun f => negb (dirent_name f =? a)%string) files)) x
  = includes (map dirent_name files) x.
Proof.
  intros Hax. induction files as [|f rest IH]; [reflexivity|].
  cbn [filter]. destruct (dirent_name f =? a)%string eqn:E; cbn [negb map].
  - apply String.eqb_eq in E. unfold includes in *. cbn [existsb].
    rewrite IH. replace (x =? dirent_name f)%string with false; [reflexivity|].
    symmetry. apply String.eqb_neq. congruence.
  - unfold includes in *. cbn [existsb]. now rewrite IH.
Qed.

Lemma fs_rm_cons files name q :
  q <> [] ->
  fs_rm (Listing files) (name :: q)
  = Listing (map (fun f =>
                    match f with
                    | File _ _ => f
                    | Dir n sub =>
                        if (n =? name)%string then Dir n (fs_rm sub q) else f
                    end) files).
Proof. destruct q; [contradiction | reflexivity]. Qed.

Lemma fs_rm_Unreadable p : fs_rm Unreadable p = Unreadable.
Proof. now destruct p. Qed.

Lemma found_after_rm_here env base files a :
  artifact_name a ->
  found env base (fs_rm (Listing files) [a])
  = without (base ++ [a]) (found env base (Listing files)).
Proof.
  intros Ha. cbn [fs_rm]. rewrite !found_Listing.
  assert (Hcargo : hasCargo (Listing (filter (fun f => negb (dirent_name f =? a)%string) files))
                   = hasCargo (Listing files)).
  { cbn [hasCargo]. apply includes_filter_other.
    destruct Ha as [-> | ->]; discriminate. }
  rewrite (flat_map_ext _ _ (fun f => entry_found_here env base _ _ f Hcargo)).
  clear Hcargo.
  generalize (Listing files) as here. intros here.
  induction files as [|f rest IH]; [reflexivity|].
  cbn [filter flat_map]. rewrite without_app, <- IH.
  destruct (dirent_name f =? a)%string eqn:E; cbn [negb flat_map].
  - apply String.eqb_eq in E.
    rewrite without_there; [reflexivity|].
    intros m Hm. destruct f as [name st | name sub]; [contradiction|].
    cbn [dirent_name] in E. subst name.
    destruct (entry_found_key env base here a sub m Hm)
      as [[Hp Hc] | (s & Hp)].
    + unfold artifactDir, path_join. rewrite Hp. f_equal. f_equal.
      destruct (type m).
      * now apply classify_Match_node in Hc.
      * now apply classify_Match_rust in Hc as [Hc _].
    + exfalso. cbn [entry_found] in Hm.
      destruct (classify here a) eqn:Hc.
      * contradiction.
      * destruct Hm as [<-|[]]. cbn [pushed path] in Hp.
        exact (app_cons_neq _ _ _ Hp).
      * apply classify_Recurse, recursable_not_artifact in Hc as (Hn & Ht & _).
        destruct Ha; contradiction.
  - f_equal. symmetry. apply without_elsewhere.
    intros m Hm. destruct f as [name st | name sub]; [contradiction|].
    cbn [dirent_name] in E. apply String.eqb_neq in E.
    destruct (entry_found_artifactDir env base here name sub m Hm) as (s & ->).
    intros Eq. apply app_inv_head in Eq. congruence.
Qed.

Lemma found_after_rm env (rel : Path) :
  forall base root a,
    forallb recursable rel = true ->
    artifact_name a ->
    found env base (fs_rm root (rel ++ [a]))
    = without (base ++ rel ++ [a]) (found env base root).
Proof.
  induction rel as [|n rest IH]; intros base root a Hrec Ha.
  - destruct root as [|files]; [reflexivity|].
    now apply found_after_rm_here.
  - cbn [forallb] in Hrec. apply andb_true_iff in Hrec as [Hn Hrest].
    destruct root as [|files]; [now rewrite fs_rm_Unreadable|].
    cbn [app]. rewrite fs_rm_cons by (now destruct rest).
    rewrite !found_Listing.
    set (h := fun f => match f with
                       | File _ _ => f
                       | Dir n0 sub =>
                           if (n0 =? n)%string
                           then Dir n0 (fs_rm sub (rest ++ [a])) else f
                       end).
    assert (Hcargo : hasCargo (Listing (map h files)) = hasCargo (Listing files)).
    { cbn [hasCargo]. f_equal. rewrite map_map. apply map_ext.
      intros [name st | name sub]; [reflexivity|]. cbn.
      now destruct (name =? n)%string. }
    rewrite (flat_map_ext _ _ (fun f => entry_found_here env base _ _ f Hcargo)).
    clear Hcargo.
    generalize (Listing files) as here. intros here.
    induction files as [|f fs IHl]; [reflexivity|].
    cbn [map flat_map]. rewrite without_app, <- IHl. f_equal.
    destruct f as [name st | name sub]; [reflexivity|].
    cbn [h]. destruct (name =? n)%string eqn:E.
    + apply String.eqb_eq in E. subst name.
      cbn [entry_found]. rewrite (recursable_classify here n Hn).
      rewrite (IH (path_join base n) sub a Hrest Ha).
      unfold path_join. now rewrite <- !app_assoc.
    + apply String.eqb_neq in E. symmetry. apply without_elsewhere.
      intros m Hm.
      destruct (entry_found_artifactDir env base here name sub m Hm) as (s & ->).
      intros Eq. apply app_inv_head in Eq. congruence.
Qed.

Lemma find_entry_map_dir name files (g : string -> Directory -> Directory) :
  find_entry name
    (map (fun f => match f with
                   | File _ _ => f
                   | Dir n sub => Dir n (g n sub)
                   end) files)
  = match find_entry name files with
    | Some (Dir n sub) => Some (Dir n (g n sub))
    | other => other
    end.
Proof.
  induction files as [|f rest IH]; [reflexivity|].
  cbn [map find_entry].
  destruct f as [n st | n sub]; cbn [dirent_name];
    destruct (n =? name)%string; (reflexivity || exact IH).
Qed.

Lemma fs_readdir_rm (cwd : Path) :
  forall fs q,
    q <> [] ->
    fs_readdir (fs_rm fs (cwd ++ q)) cwd = fs_rm (fs_readdir fs cwd) q.
Proof.
  unfold fs_readdir.
  induction cwd as [|c cs IH]; intros fs q Hq; [reflexivity|].
  destruct fs as [|files].
  - rewrite fs_rm_Unreadable. cbn [resolve]. now rewrite fs_rm_Unreadable.
  - cbn [app]. rewrite fs_rm_cons by (destruct cs; [assumption | discriminate]).
    cbn [resolve].
    rewrite (map_ext _ (fun f => match f with
                                 | File _ _ => f
                                 | Dir n sub =>
                                     Dir n (if (n =? c)%string
                                            then fs_rm sub (cs ++ q) else sub)
                                 end))
      by (intros [n st | n sub]; [reflexivity | now destruct (n =? c)%string]).
    rewrite (find_entry_map_dir c files
               (fun n sub => if (n =? c)%string then fs_rm sub (cs ++ q) else sub)).
    destruct (find_entry c files) as [[n st | n sub]|] eqn:Hfe.
    + now rewrite fs_rm_Unreadable.
    + apply find_entry_Some in Hfe as [_ Hn]. cbn [dirent_name] in Hn.
      subst n. rewrite String.eqb_refl. now apply IH.
    + now rewrite fs_rm_Unreadable.
Qed.

Lemma found_artifactDir_shape env base root m :
  In m (found env base root) ->
  exists rel a,
    artifactDir m = base ++ rel ++ [a]
    /\ forallb recursable rel = true /\ artifact_name a.
Proof.
  intros Hm. destruct (found_walked env root base m Hm) as (s & Hs & Hrec).
  exists s, (match type m with node => "node_modules"%string
                             | rust => "target"%string end).
  split; [|split].
  - unfold artifactDir, path_join. rewrite Hs. now rewrite <- app_assoc.
  - now apply forallb_forall, Forall_forall.
  - unfold artifact_name. destruct (type m); auto.
Qed.

Lemma without_unique (l : list ProjectInfo) m :
  NoDup (map artifactDir l) -> In m l ->
  exists l1 l2, l = l1 ++ m :: l2 /\ without (artifactDir m) l = l1 ++ l2.
Proof.
  intros Hnd Hm. apply in_split in Hm as (l1 & l2 & ->).
  exists l1, l2. split; [reflexivity|].
  rewrite map_app in Hnd. cbn [map] in Hnd.
  pose proof (NoDup_remove_2 _ _ _ Hnd) as Hnotin.
  rewrite without_app. cbn [without filter].
  rewrite (proj2 (Path_eqb_eq _ _) eq_refl). cbn [negb].
  f_equal; apply without_elsewhere; intros m' Hm' E; apply Hnotin;
    rewrite <- E; apply in_or_app; [left | right]; now apply in_map.
Qed.

(** X7. Deleting the artifact directory of a match and scanning again
    gives the former result without the matches that stand for the deleted
    directory: every other match is found again, in the same order and
    with the same size.  In a tree whose listings repeat no name the
    deleted match is the only one that goes. *)
Theorem rescan_after_delete :
  forall env fs cwd m,
    In m (value (scan env cwd (fs_readdir fs cwd))) ->
    value (scan env cwd
             (fs_readdir
                (fs_rm fs (deleteBuildDirectory_dirPath (path m) (type m)))
                cwd))
    = without (artifactDir m) (value (scan env cwd (fs_readdir fs cwd)))
    /\ (distinct_names (fs_readdir fs cwd) = true ->
        exists before after,
          value (scan env cwd (fs_readdir fs cwd)) = before ++ m :: after
          /\ value (scan env cwd
                      (fs_readdir
                         (fs_rm fs (deleteBuildDirectory_dirPath (path m) (type m)))
                         cwd))
             = before ++ after).
Proof.
  intros env fs cwd m Hm.
  change (deleteBuildDirectory_dirPath (path m) (type m)) with (artifactDir m).
  assert (E : value (scan env cwd (fs_readdir (fs_rm fs (artifactDir m)) cwd))
              = without (artifactDir m)
                  (value (scan env cwd (fs_readdir fs cwd)))).
  { destruct (found_artifactDir_shape env cwd _ m Hm)
      as (rel & a & Hdir & Hrec & Ha).
    rewrite Hdir.
    rewrite fs_readdir_rm by (now destruct rel).
    exact (found_after_rm env rel cwd (fs_readdir fs cwd) a Hrec Ha). }
  split; [exact E|].
  intros Hwf. rewrite E.
  apply without_unique; [|exact Hm].
  apply (NoDup_map_finer key artifactDir _ artifactDir_key).
  exact (found_NoDup env _ Hwf cwd).
Qed.

Lemma rescan_after_delete_witness :
  value (scan home_env ["home"; "u"]
           (fs_readdir
              (fs_rm home_tree
                 (deleteBuildDirectory_dirPath ["home"; "u"; "work"; "api"] rust))
              ["home"; "u"]))
  = without (artifactDir (pushed home_env ["home"; "u"; "work"; "api"] 70 rust))
      (value (scan home_env ["home"; "u"] (fs_readdir home_tree ["home"; "u"]))).
Proof.
  apply (proj1 (rescan_after_delete home_env home_tree ["home"; "u"]
                  (pushed home_env ["home"; "u"; "work"; "api"] 70 rust)
                  (or_introl eq_refl))).
Defined.

(** * [main] *)

Lemma removals_app l1 l2 : removals (l1 ++ l2) = removals l1 ++ removals l2.
Proof. apply flat_map_app. Qed.

Lemma removals_Scanned t : removals (map Scanned t) = [].
Proof. induction t as [|e t IH]; [reflexivity | exact IH]. Qed.

Lemma removals_FsRm ps : removals (map FsRm ps) = ps.
Proof.
  induction ps as [|p ps IH]; [reflexivity|]. cbn. f_equal. exact IH.
Qed.

Lemma deleteAll_spec a l :
  forall s,
    deleteAll a l s
    = (first_failure a l,
       {| disk := remove_each a (map artifactDir l) (disk s);
          activeSpinner := activeSpinner s;
          spinning := spinning s;
          cursorVisible := cursorVisible s;
          effects := effects s ++ map FsRm (map artifactDir l) |}).
Proof.
  induction l as [|m rest IH]; intros s.
  - cbn. rewrite app_nil_r. now destruct s.
  - cbn [deleteAll]. unfold andThen, deleteBuildDirectory.
    rewrite IH. cbn [disk activeSpinner spinning cursorVisible effects
                       map first_failure remove_each fold_left].
    change (deleteBuildDirectory_dirPath (path m) (type m))
      with (artifactDir m).
    unfold pure, remove_each. rewrite <- app_assoc. cbn [app].
    now destruct (rm_throws a (artifactDir m)).
Qed.

Lemma pick_In {A} ticks (l : list A) :
  forall i x, In x (pick ticks i l) -> In x l.
Proof.
  induction l as [|c rest IH]; intros i x H; [contradiction|].
  cbn [pick] in H. destruct (ticks i).
  - destruct H as [->|H]; [now left | right; eauto].
  - right; eauto.
Qed.

Lemma selected_In a projects m : In m (selected a projects) -> In m projects.
Proof.
  unfold selected.
  destruct (ticked a) as [ticks|e]; [|contradiction].
  destruct (confirmed a) as [[|]|e]; try contradiction.
  apply pick_In.
Qed.

Ltac main_step :=
  cbv [andThen effect pure main_catch cleanup if_activeSpinner showCursor
         ora_start ora_end activeSpinner_null];
  cbn [disk activeSpinner spinning cursorVisible effects fst snd].

Ltac main_done :=
  repeat rewrite removals_app;
  rewrite ?removals_Scanned, ?removals_FsRm;
  cbn [removals flat_map app map remove_each fold_left];
  rewrite ?app_nil_r; auto.

(** The state after [main], whatever the state before. *)
Lemma main_state env cwd a s :
  let projects := value (scan env cwd (fs_readdir (disk s) cwd)) in
  let s' := snd (main env cwd a s) in
  disk s' = remove_each a (map artifactDir (selected a projects)) (disk s)
  /\ removals (effects s')
     = removals (effects s) ++ map artifactDir (selected a projects)
  /\ activeSpinner s' = None
  /\ spinning s' = false
  /\ cursorVisible s' = true.
Proof.
  cbv zeta. unfold scan, selected.
  cbv [main andThen showCursor effect ora_start ora_end activeSpinner_null
         await_findBuildDirectories].
  cbn [disk activeSpinner spinning cursorVisible effects fst snd].
  set (r := findBuildDirectories env cwd (fs_readdir (disk s) cwd) []).
  destruct (List.length (value r) =? 0)%nat eqn:Elen.
  - cbn [disk activeSpinner spinning cursorVisible effects fst snd].
    apply Nat.eqb_eq, length_zero_iff_nil in Elen. rewrite Elen.
    destruct (ticked a) as [ticks|e]; [destruct (confirmed a) as [[|]|e]|];
      cbn [pick]; main_done.
  - cbv [main_try]. main_step.
    destruct (ticked a) as [ticks|e].
    + destruct (List.length (pick ticks 0 (value r)) =? 0)%nat eqn:Esel.
      * apply Nat.eqb_eq, length_zero_iff_nil in Esel. rewrite Esel.
        main_step. destruct (confirmed a) as [[|]|e]; main_done.
      * destruct (confirmed a) as [[|]|e].
        -- main_step. rewrite deleteAll_spec.
           cbn [disk activeSpinner spinning cursorVisible effects fst snd].
           destruct (first_failure a (pick ticks 0 (value r)));
             main_step; main_done.
        -- main_step. main_done.
        -- main_step.
           destruct (error_message e =? "User force closed the prompt")%string;
             main_step; main_done.
    + main_step.
      destruct (error_message e =? "User force closed the prompt")%string;
        main_step; main_done.
Qed.

(** X8. [main] gives the terminal back on every way through it, whatever
    the scan finds, whatever the prompts answer or throw and whether or
    not a deletion fails: at its end [activeSpinner] is [null], no spinner
    is drawing and the cursor has been shown again after the last spinner
    was started. *)
Theorem main_restores_the_terminal :
  forall env cwd a s,
    activeSpinner (snd (main env cwd a s)) = None
    /\ spinning (snd (main env cwd a s)) = false
    /\ cursorVisible (snd (main env cwd a s)) = true.
Proof.
  intros env cwd a s.
  destruct (main_state env cwd a s) as (_ & _ & H). exact H.
Qed.

(** X9. [main] deletes nothing without consent: when the confirm prompt
    does not resolve to yes, or the checkbox prompt is rejected, [fs.rm]
    is never called and the disk is left as it was. *)
Theorem main_deletes_nothing_without_consent :
  forall env cwd a d,
    confirmed a <> Resolved true \/ (exists e, ticked a = Rejected e) ->
    disk (run env cwd a d) = d
    /\ removals (effects (run env cwd a d)) = [].
Proof.
  intros env cwd a d Hno.
  destruct (main_state env cwd a (boot d)) as (Hd & Hr & _).
  cbv zeta in Hd, Hr. cbn [boot disk effects] in Hd, Hr.
  assert (Hsel : forall projects, selected a projects = []).
  { intros projects. unfold selected.
    destruct Hno as [Hc | (e & ->)]; [|reflexivity].
    destruct (ticked a); [|reflexivity].
    destruct (confirmed a) as [[|]|]; (reflexivity || contradiction). }
  unfold run. rewrite Hd, Hr, Hsel. split; reflexivity.
Qed.

Lemma main_deletes_nothing_without_consent_witness :
  disk (run home_env ["home"; "u"] ticks_then_declines home_tree) = home_tree
  /\ removals (effects (run home_env ["home"; "u"] ticks_then_declines
                          home_tree)) = [].
Proof.
  apply (main_deletes_nothing_without_consent home_env ["home"; "u"]
           ticks_then_declines home_tree).
  left. discriminate.
Defined.

Lemma remove_each_all_succeed a ps :
  (forall p, In p ps -> rm_throws a p = None) ->
  forall d, remove_each a ps d = fold_left fs_rm ps d.
Proof.
  unfold remove_each. induction ps as [|p ps IH]; intros H d; [reflexivity|].
  cbn [fold_left]. rewrite (H p (or_introl eq_refl)).
  apply IH. intros q Hq. apply H. now right.
Qed.

(** X10. [main] hands to [fs.rm] the artifact directories of the selected
    projects, in their order, and nothing else; the selected projects are
    matches of the scan that [main] has run; and when [fs.rm] fails on
    none of these directories, the disk after [main] is the disk before it
    with each of them removed. *)
Theorem main_removes_the_selected_matches :
  forall env cwd a d,
    removals (effects (run env cwd a d))
    = map artifactDir
        (selected a (value (scan env cwd (fs_readdir d cwd))))
    /\ Forall (fun m => In m (value (scan env cwd (fs_readdir d cwd))))
         (selected a (value (scan env cwd (fs_readdir d cwd))))
    /\ ((forall m,
           In m (selected a (value (scan env cwd (fs_readdir d cwd)))) ->
           rm_throws a (artifactDir m) = None) ->
        disk (run env cwd a d)
        = fold_left fs_rm
            (map artifactDir
               (selected a (value (scan env cwd (fs_readdir d cwd))))) d).
Proof.
  intros env cwd a d.
  destruct (main_state env cwd a (boot d)) as (Hd & Hr & _).
  cbv zeta in Hd, Hr. cbn [boot disk effects app] in Hd, Hr.
  unfold run. split; [exact Hr|]. split.
  - apply Forall_forall. intros m. apply selected_In.
  - intros Hok. rewrite Hd. apply remove_each_all_succeed.
    intros p Hp. apply in_map_iff in Hp as (m & <- & Hm). now apply Hok.
Qed.

Lemma main_removes_the_selected_matches_witness :
  disk (run home_env ["home"; "u"] first_and_third home_tree)
  = fold_left fs_rm
      (map artifactDir
         (selected first_and_third
            (value (scan home_env ["home"; "u"]
                      (fs_readdir home_tree ["home"; "u"])))))
      home_tree.
Proof.
  apply (proj2 (proj2 (main_removes_the_selected_matches home_env
                         ["home"; "u"] first_and_third home_tree))).
  intros m _. reflexivity.
Defined.

Lemma without_all_nil l : without_all [] l = l.
Proof.
  unfold without_all. induction l as [|m l IH]; [reflexivity|].
  cbn [filter existsb negb]. f_equal. exact IH.
Qed.

Lemma without_all_step gone m l :
  without_all gone (m :: l)
  = if existsb (Path_eqb (artifactDir m)) gone
    then without_all gone l else m :: without_all gone l.
Proof.
  unfold without_all. cbn [filter].
  now destruct (existsb (Path_eqb (artifactDir m)) gone).
Qed.

Lemma without_all_cons g gone l :
  without_all (g :: gone) l = without_all gone (without g l).
Proof.
  induction l as [|m l IH]; [reflexivity|].
  rewrite without_all_step. cbn [existsb without filter].
  fold (without g l).
  destruct (Path_eqb (artifactDir m) g); cbn [orb negb].
  - exact IH.
  - rewrite without_all_step.
    destruct (existsb (Path_eqb (artifactDir m)) gone); now rewrite IH.
Qed.

Lemma found_after_remove_each env cwd a (L : list ProjectInfo) :
  (forall p, rm_throws a p = None) ->
  (forall m, In m L ->
     exists rel n, artifactDir m = cwd ++ rel ++ [n]
                   /\ forallb recursable rel = true /\ artifact_name n) ->
  forall d,
    found env cwd (fs_readdir (remove_each a (map artifactDir L) d) cwd)
    = without_all (map artifactDir L) (found env cwd (fs_readdir d cwd)).
Proof.
  intros Hrm. induction L as [|m L IH]; intros Hshape d.
  - cbn. now rewrite without_all_nil.
  - cbn [map]. rewrite without_all_cons.
    unfold remove_each. cbn [fold_left]. rewrite Hrm.
    fold (remove_each a (map artifactDir L) (fs_rm d (artifactDir m))).
    rewrite IH by (intros m' Hm'; apply Hshape; now right).
    f_equal.
    destruct (Hshape m (or_introl eq_refl)) as (rel & n & -> & Hrec & Hn).
    rewrite fs_readdir_rm by (now destruct rel).
    now apply found_after_rm.
Qed.

Lemma pick_complement (l : list ProjectInfo) ticks :
  NoDup (map artifactDir l) ->
  forall i,
    without_all (map artifactDir (pick ticks i l)) l
    = pick (fun j => negb (ticks j)) i l.
Proof.
  induction l as [|m l IH]; intros Hnd i; [reflexivity|].
  cbn [map] in Hnd. inversion Hnd as [|? ? Hnotin Hnd']; subst.
  rewrite without_all_step.
  cbn [pick]. destruct (ticks i) eqn:Et; cbn [negb map existsb].
  - rewrite (proj2 (Path_eqb_eq _ _) eq_refl). cbn [orb].
    rewrite <- (IH Hnd' (S i)). unfold without_all. apply filter_ext_in.
    intros m' Hm'. cbn [existsb].
    destruct (Path_eqb (artifactDir m') (artifactDir m)) eqn:E;
      [|reflexivity].
    apply Path_eqb_eq in E. exfalso. apply Hnotin. rewrite <- E.
    now apply in_map.
  - replace (existsb (Path_eqb (artifactDir m))
               (map artifactDir (pick ticks (S i) l))) with false.
    + f_equal. apply IH. exact Hnd'.
    + symmetry. apply not_true_is_false. intros H.
      apply existsb_exists in H as (g & Hg & E).
      apply Path_eqb_eq in E. subst g.
      apply Hnotin. apply in_map_iff in Hg as (m' & E & Hm').
      rewrite <- E. apply in_map. exact (pick_In ticks l (S i) m' Hm').
Qed.

(** X11. After a run of [main] in which the user ticks projects and
    confirms and no [fs.rm] fails, a new scan of the working directory
    returns exactly the matches that were not ticked, in their order and
    with their sizes (the listings below the working directory repeating
    no name). *)
Theorem scan_after_main_returns_the_unticked :
  forall env cwd a d ticks,
    distinct_names (fs_readdir d cwd) = true ->
    ticked a = Resolved ticks ->
    confirmed a = Resolved true ->
    (forall p, rm_throws a p = None) ->
    value (scan env cwd (fs_readdir (disk (run env cwd a d)) cwd))
    = pick (fun i => negb (ticks i)) 0
        (value (scan env cwd (fs_readdir d cwd))).
Proof.
  intros env cwd a d ticks Hwf Ht Hc Hrm.
  destruct (main_state env cwd a (boot d)) as (Hd & _).
  cbv zeta in Hd. cbn [boot disk] in Hd.
  unfold run. rewrite Hd. unfold selected. rewrite Ht, Hc.
  unfold scan. fold (found env cwd (fs_readdir d cwd)).
  change (findBuildDirectories env cwd ?x []) with (scan env cwd x).
  change (value (scan env cwd ?x)) with (found env cwd x).
  rewrite found_after_remove_each.
  - apply pick_complement.
    apply (NoDup_map_finer key artifactDir _ artifactDir_key).
    exact (found_NoDup env _ Hwf cwd).
  - exact Hrm.
  - intros m Hm. apply pick_In in Hm.
    exact (found_artifactDir_shape env cwd _ m Hm).
Qed.

Lemma scan_after_main_returns_the_unticked_witness :
  value (scan home_env ["home"; "u"]
           (fs_readdir (disk (run home_env ["home"; "u"] first_and_third
                                home_tree))
              ["home"; "u"]))
  = pick (fun i => negb ((i =? 0)%nat || (i =? 2)%nat)) 0
      (value (scan home_env ["home"; "u"]
                (fs_readdir home_tree ["home"; "u"]))).
Proof.
  apply (scan_after_main_returns_the_unticked home_env ["home"; "u"]
           first_and_third home_tree
           (fun i => (i =? 0)%nat || (i =? 2)%nat)).
  - reflexivity.
  - reflexivity.
  - reflexivity.
  - intros p. reflexivity.
Defined.

Lemma main_effects_none_found env cwd a d :
  value (scan env cwd (fs_readdir d cwd)) = [] ->
  effects (run env cwd a d)
  = before_scan
    ++ map Scanned (trace (scan env cwd (fs_readdir d cwd)))
    ++ after_scan ++ [ConsoleLog "No build directories found."].
Proof.
  unfold run, scan. intros E.
  cbv [main andThen showCursor effect ora_start ora_end activeSpinner_null
         await_findBuildDirectories boot].
  cbn [disk activeSpinner spinning cursorVisible effects fst snd].
  rewrite E. cbn [List.length Nat.eqb].
  cbn [disk activeSpinner spinning cursorVisible effects fst snd app].
  unfold before_scan, after_scan. rewrite <- !app_assoc. reflexivity.
Qed.

Lemma main_effects_some_found env cwd a d :
  value (scan env cwd (fs_readdir d cwd)) <> [] ->
  exists rest,
    effects (run env cwd a d)
    = before_scan
      ++ map Scanned (trace (scan env cwd (fs_readdir d cwd)))
      ++ after_scan
      ++ PromptCheckbox (value (scan env cwd (fs_readdir d cwd))) :: rest
    /\ (forall c, ~ In (PromptCheckbox c) rest)
    /\ ~ In (ConsoleLog "No build directories found.") rest.
Proof.
  unfold run, scan. intros Hne.
  cbv [main andThen showCursor effect ora_start ora_end activeSpinner_null
         await_findBuildDirectories boot].
  cbn [disk activeSpinner spinning cursorVisible effects fst snd].
  set (r := findBuildDirectories env cwd (fs_readdir d cwd) []) in *.
  destruct (List.length (value r) =? 0)%nat eqn:Elen.
  { apply Nat.eqb_eq, length_zero_iff_nil in Elen. contradiction. }
  assert (Hrm : forall ps c, ~ In (PromptCheckbox c) (map FsRm ps)).
  { intros ps c H. apply in_map_iff in H as (p & E & _). discriminate. }
  assert (Hrm' : forall ps,
             ~ In (ConsoleLog "No build directories found.") (map FsRm ps)).
  { intros ps H. apply in_map_iff in H as (p & E & _). discriminate. }
  cbv [main_try]. main_step.
  unfold before_scan, after_scan.
  destruct (ticked a) as [ticks|e].
  - destruct (List.length (pick ticks 0 (value r)) =? 0)%nat.
    + main_step. eexists. rewrite <- !app_assoc. cbn [app].
      split; [reflexivity|]. split.
      * intros c [H|[H|[]]]; discriminate.
      * intros [H|[H|[]]]; discriminate.
    + destruct (confirmed a) as [[|]|e].
      * main_step. rewrite deleteAll_spec.
        cbn [disk activeSpinner spinning cursorVisible effects fst snd].
        destruct (first_failure a (pick ticks 0 (value r)));
          main_step; eexists; rewrite <- !app_assoc; cbn [app];
          (split; [reflexivity|]); split.
        -- intros c [H|[H|H]]; try discriminate.
           apply in_app_or in H as [H|H]; [exact (Hrm _ _ H)|].
           destruct H as [H|[H|[H|[H|[]]]]]; discriminate.
        -- intros [H|[H|H]]; try discriminate.
           apply in_app_or in H as [H|H]; [exact (Hrm' _ H)|].
           destruct H as [H|[H|[H|[H|[]]]]]; discriminate.
        -- intros c [H|[H|H]]; try discriminate.
           apply in_app_or in H as [H|H]; [exact (Hrm _ _ H)|].
           destruct H as [H|[H|[H|[]]]]; discriminate.
        -- intros [H|[H|H]]; try discriminate.
           apply in_app_or in H as [H|H]; [exact (Hrm' _ H)|].
           destruct H as [H|[H|[H|[]]]]; discriminate.
      * main_step. eexists. rewrite <- !app_assoc. cbn [app].
        split; [reflexivity|]. split.
        -- intros c [H|[H|[H|[]]]]; discriminate.
        -- intros [H|[H|[H|[]]]]; discriminate.
      * main_step.
        destruct (error_message e =? "User force closed the prompt")%string;
          main_step; eexists; rewrite <- !app_assoc; cbn [app];
          (split; [reflexivity|]); split.
        -- intros c [H|[H|[]]]; discriminate.
        -- intros [H|[H|[]]]; discriminate.
        -- intros c [H|[H|[H|[]]]]; discriminate.
        -- intros [H|[H|[H|[]]]]; discriminate.
  - main_step.
    destruct (error_message e =? "User force closed the prompt")%string;
      main_step; eexists; rewrite <- !app_assoc; cbn [app];
      (split; [reflexivity|]); split.
    + intros c [H|[]]; discriminate.
    + intros [H|[]]; discriminate.
    + intros c [H|[H|[]]]; discriminate.
    + intros [H|[H|[]]]; discriminate.
Qed.

Lemma Scanned_not_prompt t c : ~ In (PromptCheckbox c) (map Scanned t).
Proof. intros H. apply in_map_iff in H as (e & E & _). discriminate. Qed.

Lemma Scanned_not_log t s : ~ In (ConsoleLog s) (map Scanned t).
Proof. intros H. apply in_map_iff in H as (e & E & _). discriminate. Qed.

(** X12. [main] asks the user exactly when the scan has found something:
    the checkbox prompt is shown if and only if the result of the scan is
    not empty, and then once, with exactly the matches of the scan as its
    choices, in their order; the line [No build directories found.] is
    written if and only if the result is empty. *)
Theorem main_prompts_iff_something_found :
  forall env cwd a d c,
    (In (PromptCheckbox c) (effects (run env cwd a d))
     <-> c = value (scan env cwd (fs_readdir d cwd)) /\ c <> [])
    /\ (In (ConsoleLog "No build directories found.")
          (effects (run env cwd a d))
        <-> value (scan env cwd (fs_readdir d cwd)) = []).
Proof.
  intros env cwd a d c.
  destruct (value (scan env cwd (fs_readdir d cwd))) as [|m l] eqn:E.
  - rewrite (main_effects_none_found env cwd a d E).
    split; split.
    + intros H. exfalso.
      apply in_app_or in H as [H|H].
      { repeat (destruct H as [H|H]; [discriminate|]). contradiction. }
      apply in_app_or in H as [H|H]; [exact (Scanned_not_prompt _ _ H)|].
      repeat (destruct H as [H|H]; [discriminate|]). contradiction.
    + intros [-> H]. contradiction.
    + reflexivity.
    + intros _. apply in_or_app. right. apply in_or_app. right.
      right. right. now left.
  - assert (Hne : value (scan env cwd (fs_readdir d cwd)) <> [])
      by (rewrite E; discriminate).
    destruct (main_effects_some_found env cwd a d Hne)
      as (rest & Heff & Hp & Hl).
    rewrite Heff, E. split; split.
    + intros H.
      apply in_app_or in H as [H|H].
      { exfalso. repeat (destruct H as [H|H]; [discriminate|]).
        contradiction. }
      apply in_app_or in H as [H|H];
        [exfalso; exact (Scanned_not_prompt _ _ H)|].
      destruct H as [H|[H|[H|H]]]; try discriminate.
      * injection H as <-. split; [reflexivity | discriminate].
      * exfalso. exact (Hp c H).
    + intros [-> _]. apply in_or_app. right. apply in_or_app. right.
      right. right. now left.
    + intros H. exfalso.
      apply in_app_or in H as [H|H].
      { repeat (destruct H as [H|H]; [discriminate|]). contradiction. }
      apply in_app_or in H as [H|H]; [exact (Scanned_not_log _ _ H)|].
      destruct H as [H|[H|[H|H]]]; try discriminate.
      exact (Hl H).
    + discriminate.
Qed.

(** * The order of the deletions *)

Lemma filter_name_map_dir a (g : string -> Directory -> Directory) files :
  filter (fun f => negb (dirent_name f =? a)%string)
    (map (fun f => match f with
                   | File _ _ => f
                   | Dir n sub => Dir n (g n sub)
                   end) files)
  = map (fun f => match f with
                  | File _ _ => f
                  | Dir n sub => Dir n (g n sub)
                  end)
      (filter (fun f => negb (dirent_name f =? a)%string) files).
Proof.
  induction files as [|f rest IH]; [reflexivity|].
  cbn [map filter].
  destruct f as [n st | n sub]; cbn [dirent_name];
    destruct (n =? a)%string; cbn [negb map]; now rewrite IH.
Qed.

Lemma fs_rm_step_as_map files name q :
  q <> [] ->
  fs_rm (Listing files) (name :: q)
  = Listing (map (fun f =>
                    match f with
                    | File _ _ => f
                    | Dir n sub =>
                        Dir n (if (n =? name)%string then fs_rm sub q else sub)
                    end) files).
Proof.
  intros Hq. rewrite fs_rm_cons by assumption. f_equal.
  apply map_ext. intros [n st | n sub]; [reflexivity|].
  now destruct (n =? name)%string.
Qed.

Lemma fs_rm_last files name :
  fs_rm (Listing files) [name]
  = Listing (filter (fun f => negb (dirent_name f =? name)%string) files).
Proof. reflexivity. Qed.

Lemma fs_rm_comm (p : Path) :
  forall d q, fs_rm (fs_rm d p) q = fs_rm (fs_rm d q) p.
Proof.
  induction p as [|a p' IH]; intros d q; [reflexivity|].
  destruct q as [|b q']; [reflexivity|].
  destruct d as [|files]; [now rewrite !fs_rm_Unreadable|].
  destruct p' as [|a' p''], q' as [|b' q''].
  - rewrite !fs_rm_last. f_equal.
    induction files as [|f rest IHl]; [reflexivity|].
    cbn [filter].
    destruct (dirent_name f =? a)%string eqn:Ea,
             (dirent_name f =? b)%string eqn:Eb;
      cbn [negb filter]; rewrite ?Ea, ?Eb; cbn [negb];
      now rewrite ?IHl.
  - rewrite fs_rm_last.
    rewrite !(fs_rm_step_as_map _ b (b' :: q'')) by discriminate.
    rewrite fs_rm_last. f_equal. symmetry.
    exact (filter_name_map_dir a
             (fun n sub => if (n =? b)%string
                           then fs_rm sub (b' :: q'') else sub) files).
  - rewrite fs_rm_last.
    rewrite !(fs_rm_step_as_map _ a (a' :: p'')) by discriminate.
    rewrite fs_rm_last. f_equal.
    exact (filter_name_map_dir b
             (fun n sub => if (n =? a)%string
                           then fs_rm sub (a' :: p'') else sub) files).
  - rewrite (fs_rm_step_as_map files a (a' :: p'')) by discriminate.
    rewrite (fs_rm_step_as_map files b (b' :: q'')) by discriminate.
    rewrite !fs_rm_step_as_map by discriminate.
    f_equal. rewrite !map_map. apply map_ext.
    intros [n st | n sub]; [reflexivity|]. f_equal.
    destruct (n =? a)%string, (n =? b)%string; try reflexivity.
    apply IH.
Qed.

Lemma remove_each_Permutation a ps ps' :
  Permutation ps ps' -> forall d, remove_each a ps d = remove_each a ps' d.
Proof.
  unfold remove_each.
  induction 1 as [|p l l' _ IH|p q l|l l' l'' _ IH1 _ IH2]; intros d.
  - reflexivity.
  - cbn [fold_left]. apply IH.
  - cbn [fold_left]. f_equal.
    destruct (rm_throws a p), (rm_throws a q); try reflexivity.
    apply fs_rm_comm.
  - now rewrite IH1.
Qed.

(** X13. The deletions that [main] starts together do not depend on each
    other: in whatever order the selected projects are deleted, the disk
    after all the deletions is the same. *)
Theorem deletions_commute :
  forall a l l' s,
    Permutation l l' ->
    disk (snd (deleteAll a l s)) = disk (snd (deleteAll a l' s)).
Proof.
  intros a l l' s HP. rewrite !deleteAll_spec.
  cbn [snd disk].
  apply remove_each_Permutation.
  now apply Permutation_map.
Qed.

Lemma deletions_commute_witness :
  disk (snd (deleteAll first_and_third
               [ pushed home_env ["home"; "u"; "work"; "api"] 70 rust;
                 pushed home_env ["home"; "u"; "work"; "web"] 50 node ]
               (boot home_tree)))
  = disk (snd (deleteAll first_and_third
                 [ pushed home_env ["home"; "u"; "work"; "web"] 50 node;
                   pushed home_env ["home"; "u"; "work"; "api"] 70 rust ]
                 (boot home_tree))).
Proof.
  apply (deletions_commute first_and_third _ _ (boot home_tree)).
  apply perm_swap.
Defined.

(** * The earlier version on every tree *)

Lemma findNodeModules_loop_value p files :
  (forall name sub, In (Dir name sub) files ->
     forall q rs, value (NodeOnly.findNodeModules q sub rs)
                  = rs ++ found_v1 q sub) ->
  forall rs,
    value (NodeOnly.findNodeModules_loop NodeOnly.findNodeModules p files rs)
    = rs ++ flat_map (entry_found_v1 p) files.
Proof.
  induction files as [|f rest IH]; intros Hsub rs.
  - cbn. now rewrite app_nil_r.
  - assert (Hrest : forall name sub, In (Dir name sub) rest ->
              forall q rs0, value (NodeOnly.findNodeModules q sub rs0)
                            = rs0 ++ found_v1 q sub)
      by (intros; apply (Hsub name); now right).
    destruct f as [name st | name sub];
      cbn [NodeOnly.findNodeModules_loop flat_map entry_found_v1 dirent_name].
    + now apply IH.
    + destruct (name =? "node_modules")%string.
      * run_M. rewrite (IH Hrest). now rewrite <- app_assoc.
      * destruct (negb (startsWith name ".") && negb false).
        -- run_M. rewrite (Hsub name sub (or_introl eq_refl)).
           rewrite (IH Hrest). now rewrite <- app_assoc.
        -- now apply IH.
Qed.

Lemma findNodeModules_value (d : Directory) :
  forall p rs,
    value (NodeOnly.findNodeModules p d rs) = rs ++ found_v1 p d.
Proof.
  induction d as [|files IH] using Directory_tree_ind; intros p rs.
  - cbn. now rewrite app_nil_r.
  - unfold found_v1. cbn [NodeOnly.findNodeModules]. run_M.
    now rewrite !(findNodeModules_loop_value p files IH).
Qed.

Lemma found_v1_Listing p files :
  found_v1 p (Listing files) = flat_map (entry_found_v1 p) files.
Proof.
  unfold found_v1 at 1. cbn [NodeOnly.findNodeModules]. run_M.
  rewrite (findNodeModules_loop_value p files); [reflexivity|].
  intros; apply findNodeModules_value.
Qed.

Lemma found_v1_below (d : Directory) :
  forall p m1, In m1 (found_v1 p d) -> exists s, NodeOnly.path m1 = p ++ s.
Proof.
  induction d as [|files IH] using Directory_tree_ind; intros p m1 Hm.
  - contradiction.
  - rewrite found_v1_Listing in Hm.
    apply in_flat_map in Hm as (f & Hf & Hm).
    destruct f as [name st | name sub]; [contradiction|].
    cbn [entry_found_v1] in Hm.
    destruct (name =? "node_modules")%string.
    + destruct Hm as [<-|[]]. exists []. cbn. now rewrite app_nil_r.
    + destruct (negb (startsWith name ".") && negb false); [|contradiction].
      destruct (IH name sub Hf _ _ Hm) as (s & Hs).
      exists (name :: s). rewrite Hs. unfold path_join.
      now rewrite <- app_assoc.
Qed.

Lemma later_node_matches_in_earlier env (d : Directory) :
  forall base m,
    In m (found env base d) -> type m = node ->
    exists m1, In m1 (found_v1 base d)
               /\ NodeOnly.path m1 = path m /\ NodeOnly.size m1 = size m.
Proof.
  induction d as [|files IH] using Directory_tree_ind; intros base m Hm Ht.
  - contradiction.
  - rewrite found_Listing in Hm.
    apply in_flat_map in Hm as (f & Hf & Hm).
    destruct f as [name st | name sub]; [contradiction|].
    cbn [entry_found] in Hm.
    destruct (classify (Listing files) name) eqn:Hc.
    + contradiction.
    + destruct Hm as [<-|[]]. cbn [pushed type] in Ht. subst t.
      apply classify_Match_node in Hc. subst name.
      eexists. split.
      * rewrite found_v1_Listing. apply in_flat_map.
        exists (Dir "node_modules" sub). split; [assumption|].
        cbn [entry_found_v1]. cbn [String.eqb]. left. reflexivity.
      * split; reflexivity.
    + apply classify_Recurse in Hc.
      destruct (IH name sub Hf _ m Hm Ht) as (m1 & Hm1 & Hp & Hs).
      exists m1. split; [|now split].
      rewrite found_v1_Listing. apply in_flat_map.
      exists (Dir name sub). split; [assumption|].
      cbn [entry_found_v1].
      unfold recursable in Hc.
      apply andb_true_iff in Hc as [Hc _].
      apply andb_true_iff in Hc as [Hh Hn].
      apply negb_true_iff in Hn. now rewrite Hn, Hh.
Qed.

Lemma earlier_matches_in_later_or_below_target env (d : Directory) :
  forall base m1,
    In m1 (found_v1 base d) ->
    (exists m, In m (found env base d) /\ type m = node
               /\ path m = NodeOnly.path m1 /\ size m = NodeOnly.size m1)
    \/ (exists pre post,
          NodeOnly.path m1 = base ++ pre ++ "target"%string :: post).
Proof.
  induction d as [|files IH] using Directory_tree_ind; intros base m1 Hm.
  - contradiction.
  - rewrite found_v1_Listing in Hm.
    apply in_flat_map in Hm as (f & Hf & Hm).
    destruct f as [name st | name sub]; [contradiction|].
    cbn [entry_found_v1] in Hm.
    destruct (name =? "node_modules")%string eqn:Enm.
    + destruct Hm as [<-|[]]. left.
      exists (pushed env base
                (value (getDirectorySize (path_join base name) sub)) node).
      split; [|repeat split].
      rewrite found_Listing. apply in_flat_map.
      exists (Dir name sub). split; [assumption|].
      cbn [entry_found]. unfold classify. rewrite Enm. now left.
    + destruct (negb (startsWith name ".")) eqn:Hh; [|contradiction].
      cbn [andb negb] in Hm.
      destruct (name =? "target")%string eqn:Etg.
      * right. apply String.eqb_eq in Etg. subst name.
        destruct (found_v1_below sub _ _ Hm) as (s & Hs).
        exists [], s. rewrite Hs. unfold path_join.
        now rewrite <- app_assoc.
      * destruct (IH name sub Hf _ _ Hm)
          as [(m & Hin & Ht & Hp & Hs) | (pre & post & Hp)].
        -- left. exists m. split; [|now repeat split].
           rewrite found_Listing. apply in_flat_map.
           exists (Dir name sub). split; [assumption|].
           cbn [entry_found]. unfold classify, recursable.
           now rewrite Enm, Etg, Hh.
        -- right. exists (name :: pre), post. rewrite Hp.
           unfold path_join. now rewrite <- app_assoc.
Qed.

(** X14. On every tree, the later [findBuildDirectories] reports no
    [node_modules] directory that the earlier [findNodeModules] did not
    report with the same path and size; and a match of the earlier version
    that the later one does not report as a [node] match has a project
    path that lies below a directory named [target], which the later
    version never walks through. *)
Theorem later_version_drops_only_below_target :
  forall env base root,
    (forall m, In m (value (scan env base root)) -> type m = node ->
       In (path m, size m)
          (map path_and_size_v1 (value (NodeOnly.scan base root))))
    /\ (forall m1, In m1 (value (NodeOnly.scan base root)) ->
          In (NodeOnly.path m1, NodeOnly.size m1)
             (map path_and_size
                (filter (fun m => match type m with
                                  | node => true
                                  | rust => false
                                  end)
                   (value (scan env base root))))
          \/ (exists pre post,
                NodeOnly.path m1 = base ++ pre ++ "target"%string :: post)).
Proof.
  intros env base root. split.
  - intros m Hm Ht.
    destruct (later_node_matches_in_earlier env root base m Hm Ht)
      as (m1 & Hm1 & Hp & Hs).
    apply in_map_iff. exists m1. split; [|exact Hm1].
    unfold path_and_size_v1. now rewrite Hp, Hs.
  - intros m1 Hm1.
    destruct (earlier_matches_in_later_or_below_target env root base m1 Hm1)
      as [(m & Hin & Ht & Hp & Hs) | H]; [left | now right].
    apply in_map_iff. exists m. split.
    + unfold path_and_size. now rewrite Hp, Hs.
    + apply filter_In. split; [exact Hin | now rewrite Ht].
Qed.

Lemma later_version_drops_only_below_target_witness :
  In (["root"; "lib"], 3)
     (map path_and_size_v1 (value (NodeOnly.scan ["root"] target_tree)))
  /\ (In (["root"; "target"; "debug"], 4)
         (map path_and_size
            (filter (fun m => match type m with
                              | node => true
                              | rust => false
                              end)
               (value (scan no_env ["root"] target_tree))))
      \/ (exists pre post,
            ["root"; "target"; "debug"]
            = ["root"] ++ pre ++ "target"%string :: post)).
Proof.
  split.
  - apply (proj1 (later_version_drops_only_below_target no_env ["root"]
                    target_tree)
             (pushed no_env ["root"; "lib"] 3 node)).
    + left. reflexivity.
    + reflexivity.
  - apply (proj2 (later_version_drops_only_below_target no_env ["root"]
                    target_tree)
             {| NodeOnly.path := ["root"; "target"; "debug"];
                NodeOnly.size := 4 |}).
    right. left. reflexivity.
Defined.

(** * What [main] writes *)

Lemma main_effects_found env cwd a d :
  value (scan env cwd (fs_readdir d cwd)) <> [] ->
  effects (run env cwd a d)
  = before_scan
    ++ map Scanned (trace (scan env cwd (fs_readdir d cwd)))
    ++ after_scan
    ++ PromptCheckbox (value (scan env cwd (fs_readdir d cwd)))
       :: after_prompt a (value (scan env cwd (fs_readdir d cwd))).
Proof.
  unfold run, scan, after_prompt, caught. intros Hne.
  cbv [main andThen showCursor effect ora_start ora_end activeSpinner_null
         await_findBuildDirectories boot].
  cbn [disk activeSpinner spinning cursorVisible effects fst snd].
  set (r := findBuildDirectories env cwd (fs_readdir d cwd) []) in *.
  destruct (List.length (value r) =? 0)%nat eqn:Elen.
  { apply Nat.eqb_eq, length_zero_iff_nil in Elen. contradiction. }
  cbv [main_try]. main_step.
  unfold before_scan, after_scan.
  destruct (ticked a) as [ticks|e].
  - destruct (List.length (pick ticks 0 (value r)) =? 0)%nat.
    + main_step. rewrite <- !app_assoc. reflexivity.
    + destruct (confirmed a) as [[|]|e].
      * main_step. rewrite deleteAll_spec.
        cbn [disk activeSpinner spinning cursorVisible effects fst snd].
        destruct (first_failure a (pick ticks 0 (value r)));
          main_step; rewrite <- !app_assoc; reflexivity.
      * main_step. rewrite <- !app_assoc. reflexivity.
      * main_step.
        destruct (error_message e =? "User force closed the prompt")%string;
          main_step; rewrite <- !app_assoc; reflexivity.
  - main_step.
    destruct (error_message e =? "User force closed the prompt")%string;
      main_step; rewrite <- !app_assoc; reflexivity.
Qed.

Lemma first_failure_None a l :
  first_failure a l = None
  <-> forall m, In m l -> rm_throws a (artifactDir m) = None.
Proof.
  induction l as [|m l IH]; cbn [first_failure].
  - split; [intros _ m [] | reflexivity].
  - destruct (rm_throws a (artifactDir m)) eqn:E.
    + split; [discriminate|]. intros H.
      specialize (H m (or_introl eq_refl)). congruence.
    + rewrite IH. split.
      * intros H m' [<-|Hm']; [exact E | now apply H].
      * intros H m' Hm'. apply H. now right.
Qed.

Ltac not_among :=
  repeat match goal with
         | H : In _ (_ ++ _) |- _ => apply in_app_or in H as [H|H]
         | H : In _ (map Scanned _) |- _ =>
             apply in_map_iff in H as (? & ? & _); discriminate
         | H : In _ (map FsRm _) |- _ =>
             apply in_map_iff in H as (? & ? & _); discriminate
         | H : In _ (_ :: _) |- _ => destruct H as [H|H]; [try discriminate|]
         | H : In _ [] |- _ => contradiction
         end.

(** X15. When the user has ticked projects and confirmed, [main] announces
    success exactly when no deletion has failed, and announces failure
    exactly when some deletion has failed; a failing deletion does not
    keep [fs.rm] from being called for every other selected project. *)
Theorem main_reports_failed_deletions :
  forall env cwd a d ticks,
    ticked a = Resolved ticks ->
    confirmed a = Resolved true ->
    pick ticks 0 (value (scan env cwd (fs_readdir d cwd))) <> [] ->
    (In (OraSucceed "Successfully deleted selected build directories.")
        (effects (run env cwd a d))
     <-> forall m,
           In m (pick ticks 0 (value (scan env cwd (fs_readdir d cwd)))) ->
           rm_throws a (artifactDir m) = None)
    /\ (In (OraFail "Error deleting build directories:")
           (effects (run env cwd a d))
        <-> ~ forall m,
                In m (pick ticks 0 (value (scan env cwd (fs_readdir d cwd)))) ->
                rm_throws a (artifactDir m) = None)
    /\ (forall m,
          In m (pick ticks 0 (value (scan env cwd (fs_readdir d cwd)))) ->
          In (FsRm (artifactDir m)) (effects (run env cwd a d))).
Proof.
  intros env cwd a d ticks Ht Hc Hsel.
  assert (Hne : value (scan env cwd (fs_readdir d cwd)) <> []).
  { intros E. apply Hsel. now rewrite E. }
  rewrite (main_effects_found env cwd a d Hne).
  unfold after_prompt. rewrite Ht, Hc.
  set (sel := pick ticks 0 (value (scan env cwd (fs_readdir d cwd)))) in *.
  destruct (List.length sel =? 0)%nat eqn:El.
  { apply Nat.eqb_eq, length_zero_iff_nil in El. contradiction. }
  rewrite <- first_failure_None.
  unfold before_scan, after_scan.
  split; [|split].
  - destruct (first_failure a sel) eqn:Ef; split; intros H.
    + exfalso. not_among.
    + discriminate.
    + reflexivity.
    + apply in_or_app. right. apply in_or_app. right.
      apply in_or_app. right. right. right. right.
      apply in_or_app. right. apply in_or_app. left. now left.
  - destruct (first_failure a sel) eqn:Ef; split; intros H.
    + discriminate.
    + apply in_or_app. right. apply in_or_app. right.
      apply in_or_app. right. right. right. right.
      apply in_or_app. right. apply in_or_app. left. now left.
    + exfalso. not_among.
    + exfalso. now apply H.
  - intros m Hm.
    apply in_or_app. right. apply in_or_app. right.
    apply in_or_app. right. right. right. right.
    apply in_or_app. left. apply in_map. now apply in_map.
Qed.

Lemma main_reports_failed_deletions_witness :
  In (OraFail "Error deleting build directories:")
     (effects (run home_env ["home"; "u"] target_locked home_tree))
  <-> ~ forall m,
          In m (pick (fun _ => true) 0
                  (value (scan home_env ["home"; "u"]
                            (fs_readdir home_tree ["home"; "u"])))) ->
          rm_throws target_locked (artifactDir m) = None.
Proof.
  assert (Hsel : pick (fun _ => true) 0
                   (value (scan home_env ["home"; "u"]
                             (fs_readdir home_tree ["home"; "u"]))) <> [])
    by (vm_compute; discriminate).
  exact (proj1 (proj2 (main_reports_failed_deletions home_env ["home"; "u"]
                         target_locked home_tree (fun _ => true)
                         eq_refl eq_refl Hsel))).
Defined.

(** X16. When a prompt is rejected, [main] deletes nothing and says
    nothing about it if the message of the rejection is [User force closed
    the prompt]; for any other rejection it writes [An error occurred:]
    with an error that carries the message of what was thrown ([Unknown
    error] for a value that is neither an error nor a string). *)
Theorem main_is_silent_when_the_prompt_is_closed :
  forall env cwd a d e,
    value (scan env cwd (fs_readdir d cwd)) <> [] ->
    ticked a = Rejected e
    \/ (exists ticks,
          ticked a = Resolved ticks
          /\ pick ticks 0 (value (scan env cwd (fs_readdir d cwd))) <> []
          /\ confirmed a = Rejected e) ->
    disk (run env cwd a d) = d
    /\ forall label x,
         In (ConsoleErrorThrown label x) (effects (run env cwd a d))
         <-> error_message e <> "User force closed the prompt"%string
             /\ label = "An error occurred:"%string
             /\ x = ErrorObject (error_message e).
Proof.
  intros env cwd a d e Hne Hrej.
  split.
  { destruct (main_state env cwd a (boot d)) as (Hd & _).
    cbv zeta in Hd. cbn [boot disk] in Hd. unfold run. rewrite Hd.
    unfold selected.
    destruct Hrej as [-> | (ticks & -> & _ & ->)]; reflexivity. }
  intros label x.
  rewrite (main_effects_found env cwd a d Hne).
  assert (Hcaught :
            In (ConsoleErrorThrown label x) (caught e)
            <-> error_message e <> "User force closed the prompt"%string
                /\ label = "An error occurred:"%string
                /\ x = ErrorObject (error_message e)).
  { unfold caught.
    destruct (error_message e =? "User force closed the prompt")%string eqn:E.
    - apply String.eqb_eq in E. split.
      + intros H. exfalso. not_among.
      + intros [H _]. contradiction.
    - apply String.eqb_neq in E. split.
      + intros [H|[H|[]]]; [|discriminate].
        injection H as <- <-. auto.
      + intros (_ & -> & ->). now left. }
  unfold after_prompt, before_scan, after_scan.
  destruct Hrej as [-> | (ticks & -> & Hsel & ->)].
  - rewrite <- Hcaught. split; intros H.
    + not_among. exact H.
    + apply in_or_app. right. apply in_or_app. right.
      apply in_or_app. right. right. exact H.
  - destruct (List.length
                (pick ticks 0 (value (scan env cwd (fs_readdir d cwd)))) =? 0)%nat
      eqn:El.
    { apply Nat.eqb_eq, length_zero_iff_nil in El. contradiction. }
    rewrite <- Hcaught. split; intros H.
    + not_among. exact H.
    + apply in_or_app. right. apply in_or_app. right.
      apply in_or_app. right. right. right. exact H.
Qed.

Lemma main_is_silent_when_the_prompt_is_closed_witness :
  disk (run home_env ["home"; "u"] closes_prompt home_tree) = home_tree
  /\ forall label x,
       In (ConsoleErrorThrown label x)
          (effects (run home_env ["home"; "u"] closes_prompt home_tree))
       <-> error_message (ErrorObject "User force closed the prompt")
           <> "User force closed the prompt"%string
           /\ label = "An error occurred:"%string
           /\ x = ErrorObject
                    (error_message (ErrorObject "User force closed the prompt")).
Proof.
  apply (main_is_silent_when_the_prompt_is_closed home_env ["home"; "u"]
           closes_prompt home_tree
           (ErrorObject "User force closed the prompt")).
  - vm_compute. discriminate.
  - left. reflexivity.
Defined.

(** * The sum of a directory *)

Lemma Zsum_firstn_bounds (l : list Z) :
  Forall (fun x => 0 <= x) l ->
  forall k, 0 <= Zsum (firstn k l) <= Zsum l.
Proof.
  induction 1 as [|x l Hx _ IH]; intros k.
  - destruct k; cbn; lia.
  - destruct k as [|k]; cbn [firstn Zsum fold_right].
    + specialize (IH 0%nat). cbn [firstn Zsum fold_right] in IH.
      unfold Zsum in *. lia.
    + specialize (IH k). unfold Zsum in *. lia.
Qed.

Lemma Zsum_bounds_each (l : list Z) :
  Forall (fun x => 0 <= x) l -> Forall (fun x => 0 <= x <= Zsum l) l.
Proof.
  induction 1 as [|x l Hx Hl IH]; constructor.
  - pose proof (Zsum_firstn_bounds l Hl 0) as H0.
    cbn [firstn Zsum fold_right] in *. unfold Zsum in *. lia.
  - apply Forall_impl with (2 := IH). intros y Hy.
    cbn [Zsum fold_right]. unfold Zsum in *. lia.
Qed.

Lemma child_sizes_nonneg p files :
  sizes_nonneg (Listing files) = true ->
  Forall (fun x => 0 <= x) (map (child_size p) files).
Proof.
  cbn [sizes_nonneg]. intros H. rewrite forallb_forall in H.
  apply Forall_forall. intros x Hx.
  apply in_map_iff in Hx as (f & <- & Hf). specialize (H f Hf).
  destruct f as [n [st|] | n sub]; cbn [child_size].
  - now apply Z.leb_le.
  - lia.
  - now apply getDirectorySize_nonneg.
Qed.

(** C4 does not hold of every listing: an entry that [fs.stat] fails on
    ends the count, and the entries listed after it are not in the size. *)
Lemma getDirectorySize_not_the_sum_when_stat_throws :
  value (getDirectorySize ["big"] dangling_tree) = 4
  /\ Zsum (map (child_size ["big"])
             [ File "a" (Some 4); File "gone" None; File "b" (Some 6);
               Dir "sub" (Listing [ File "c" (Some 8) ]) ]) = 18
  /\ value (getDirectorySize ["big"] dangling_tree)
     <> Zsum (map (child_size ["big"])
                [ File "a" (Some 4); File "gone" None; File "b" (Some 6);
                  Dir "sub" (Listing [ File "c" (Some 8) ]) ]).
Proof.
  split; [reflexivity|]. split; [reflexivity|]. discriminate.
Qed.

(** C4, as the code has it.  When [fs.stat] answers for every entry of the
    listing that is not a directory, no size below the directory is
    negative and the sum is at most 2^53, so that every number added and
    every sum on the way lies between 0 and 2^53, where JavaScript adds
    without rounding: [getDirectorySize] of a path is the sum, over the
    entries of its listing, of [getDirectorySize] of the entry for a
    directory and of the size [fs.stat] reports for any other entry.  A
    directory that holds files of 100 and 250 bytes and a subdirectory
    with one file of 50 bytes, listed in any order, has size 400. *)
Theorem getDirectorySize_sums_children :
  (forall p files,
     forallb stat_ok files = true ->
     sizes_nonneg (Listing files) = true ->
     Zsum (map (child_size p) files) <= 2 ^ 53 ->
     value (getDirectorySize p (Listing files))
     = Zsum (map (child_size p) files)
     /\ Forall (fun f => 0 <= child_size p f <= 2 ^ 53) files
     /\ forall k,
          0 <= Zsum (map (child_size p) (firstn k files)) <= 2 ^ 53)
  /\ (forall p files a b s c,
        Permutation files
          [ File a (Some 100); File b (Some 250);
            Dir s (Listing [ File c (Some 50) ]) ] ->
        value (getDirectorySize p (Listing files)) = 400).
Proof.
  assert (Hsum : forall p files,
             forallb stat_ok files = true ->
             value (getDirectorySize p (Listing files))
             = Zsum (map (child_size p) files)).
  { intros p files Hok. cbn [getDirectorySize]. run_M.
    now apply getDirectorySize_loop_sum. }
  split.
  - intros p files Hok Hnn Hle.
    pose proof (child_sizes_nonneg p files Hnn) as Hpos.
    split; [now apply Hsum|]. split.
    + pose proof (Zsum_bounds_each _ Hpos) as Heach.
      rewrite Forall_map in Heach.
      apply Forall_impl with (2 := Heach). intros f Hf. lia.
    + intros k. rewrite <- firstn_map.
      pose proof (Zsum_firstn_bounds _ Hpos k). lia.
  - intros p files a b s c HP.
    rewrite Hsum by (apply (forallb_Permutation _ _ _ HP); reflexivity).
    rewrite (Zsum_Permutation _ _ (Permutation_map (child_size p) HP)).
    reflexivity.
Qed.

Lemma getDirectorySize_sums_children_witness :
  (forallb stat_ok [ File "a" (Some 1); Dir "d" Unreadable;
                     Dir "e" (Listing [ File "b" (Some 2) ]) ] = true
   /\ sizes_nonneg (Listing [ File "a" (Some 1); Dir "d" Unreadable;
                              Dir "e" (Listing [ File "b" (Some 2) ]) ]) = true
   /\ Zsum (map (child_size ["r"])
              [ File "a" (Some 1); Dir "d" Unreadable;
                Dir "e" (Listing [ File "b" (Some 2) ]) ]) <= 2 ^ 53
   /\ value (getDirectorySize ["r"]
               (Listing [ File "a" (Some 1); Dir "d" Unreadable;
                          Dir "e" (Listing [ File "b" (Some 2) ]) ]))
      = Zsum (map (child_size ["r"])
                [ File "a" (Some 1); Dir "d" Unreadable;
                  Dir "e" (Listing [ File "b" (Some 2) ]) ]))
  /\ (Permutation
        [ Dir "sub" (Listing [ File "c" (Some 50) ]);
          File "a" (Some 100); File "b" (Some 250) ]
        [ File "a" (Some 100); File "b" (Some 250);
          Dir "sub" (Listing [ File "c" (Some 50) ]) ]
      /\ value (getDirectorySize ["r"]
                  (Listing [ Dir "sub" (Listing [ File "c" (Some 50) ]);
                             File "a" (Some 100); File "b" (Some 250) ]))
         = 400).
Proof.
  assert (HP : Permutation
        [ Dir "sub" (Listing [ File "c" (Some 50) ]);
          File "a" (Some 100); File "b" (Some 250) ]
        [ File "a" (Some 100); File "b" (Some 250);
          Dir "sub" (Listing [ File "c" (Some 50) ]) ]).
  { eapply perm_trans; [apply perm_swap|].
    apply perm_skip. apply perm_swap. }
  assert (Hle : Zsum (map (child_size ["r"])
                        [ File "a" (Some 1); Dir "d" Unreadable;
                          Dir "e" (Listing [ File "b" (Some 2) ]) ])
                <= 2 ^ 53)
    by (vm_compute; discriminate).
  split.
  - split; [reflexivity|]. split; [reflexivity|]. split; [exact Hle|].
    exact (proj1 (proj1 getDirectorySize_sums_children ["r"]
                    [ File "a" (Some 1); Dir "d" Unreadable;
                      Dir "e" (Listing [ File "b" (Some 2) ]) ]
                    eq_refl eq_refl Hle)).
  - split; [exact HP|].
    exact (proj2 getDirectorySize_sums_children ["r"] _ "a" "b" "sub" "c" HP).
Defined.
